(** * MinuteDock client: record layer and call layer

    A shallow embedding of [minutedock/models.py], [minutedock/api.py],
    [minutedock/endpoints.py] and [minutedock/exceptions.py], followed by
    the properties of the record factory, of entity equality and
    serialization, of the URL builder, of the request dispatcher and of
    the facade.

    Python dictionaries are finite maps ([gmap string _]); the json codec,
    the query-string encoder and the HTTP transport are collaborators the
    library consumes as they are, so they are fields of the class
    [Collaborators].  Numbers are integers: floating point values are not
    part of the model. *)

From stdpp Require Import gmap strings list fin_maps pretty.
From Stdlib Require Import ZArith Ascii.

#[local] Set Warnings "-register-all".
#[local] Open Scope string_scope.
#[local] Open Scope Z_scope.

(** ** Python data *)

(** The values a field or a json document holds: what [json] decoding
    yields (None, bool, int, str, list, dict with string keys), and the
    tuples and sets that [BaseModel.to_dict] also looks for.  A set is given
    by its members in iteration order. *)
Inductive value :=
  | VNone
  | VBool (b : bool)
  | VInt (n : Z)
  | VStr (s : string)
  | VList (l : list value)
  | VTuple (l : list value)
  | VSet (l : list value)
  | VDict (d : gmap string value).

(** Python truth value: [bool(v)]. *)
Definition truthy (v : value) : bool :=
  match v with
  | VNone => false
  | VBool b => b
  | VInt n => negb (n =? 0)
  | VStr s => negb (String.eqb s "")
  | VList l | VTuple l | VSet l => negb (bool_decide (l = []))
  | VDict d => negb (bool_decide (d = ∅))
  end.

(** [v is None] *)
Definition is_none (v : value) : bool :=
  match v with VNone => true | _ => false end.

(** [bool] is a subclass of [int]: [True == 1] and [False == 0]. *)
Definition as_int (v : value) : option Z :=
  match v with
  | VBool b => Some (Z.b2z b)
  | VInt n => Some n
  | _ => None
  end.

Definition list_eqb {A B} (f : A → B → bool) : list A → list B → bool :=
  fix go l1 l2 :=
    match l1, l2 with
    | [], [] => true
    | x :: l1, y :: l2 => f x y && go l1 l2
    | _, _ => false
    end.

(** Two dictionaries are equal when they have the same keys and equal
    values under each key. *)
Definition dict_eqb {A B} (f : A → B → bool)
    (m1 : gmap string A) (m2 : gmap string B) : bool :=
  map_fold (λ _ (r : bool) acc, r && acc) true
    (merge (λ x y, match x, y with
                   | Some u, Some v => Some (f u v)
                   | None, None => None
                   | _, _ => Some false
                   end) m1 m2).

(** Agreement of two dictionaries under one key. *)
Definition agree {A B} (f : A → B → bool) (x : option A) (y : option B)
    : Prop :=
  match x, y with
  | Some u, Some v => f u v = true
  | None, None => True
  | _, _ => False
  end.

(** Python's [==] on data. *)
Fixpoint py_eqb (a b : value) {struct a} : bool :=
  match a, b with
  | VNone, VNone => true
  | VBool x, (VBool _ | VInt _) => bool_decide (Some (Z.b2z x) = as_int b)
  | VInt x, (VBool _ | VInt _) => bool_decide (Some x = as_int b)
  | VStr x, VStr y => String.eqb x y
  | VList l1, VList l2 => list_eqb py_eqb l1 l2
  | VTuple l1, VTuple l2 => list_eqb py_eqb l1 l2
  | VSet l1, VSet l2 =>
      forallb (λ x, existsb (λ y, py_eqb x y) l2) l1
      && forallb (λ y, existsb (λ x, py_eqb x y) l1) l2
  | VDict m1, VDict m2 => dict_eqb py_eqb m1 m2
  | _, _ => false
  end.

(** The number of constructors of a value: the measure for induction on
    values, whose members sit inside lists and finite maps. *)
Fixpoint vsize (v : value) : nat :=
  match v with
  | VList l | VTuple l | VSet l => S (foldr (λ x n, vsize x + n)%nat 0%nat l)
  | VDict d => S (map_fold (λ _ x n, vsize x + n)%nat 0%nat d)
  | _ => 1%nat
  end.

(** ** Exceptions ([exceptions.py] and the built-in ones that can escape) *)

Inductive exn :=
  | ClientException (msg : string)
  | SystemExit (http_status : Z)
  | TypeError
  | AttributeError
  | JSONDecodeError.

Inductive outcome (A : Type) :=
  | Ret (a : A)
  | Raise (e : exn).
Arguments Ret {A} a.
Arguments Raise {A} e.

(** ** Entities ([models.py]) *)

Inductive ModelClass :=
  Report | User | Account | Contact | Project | Task | TimeEntry | Dock.

Inductive seq_kind := KList | KTuple | KSet.

(** An instance of a model class: its class, its attributes and the [_json]
    document the factory stores on it.  An attribute holds plain data, another
    instance, or a list, tuple or set whose members are data or instances:
    the shapes [to_dict] tells apart.  A constructor gives every declared
    attribute an entry in [attrs]. *)
Inductive model :=
  | Model (cls : ModelClass) (attrs : gmap string field) (_json : option value)
with field :=
  | FVal (v : value)
  | FModel (m : model)
  | FSeq (k : seq_kind) (items : list item)
with item :=
  | IVal (v : value)
  | IModel (m : model).

Definition class_of (m : model) : ModelClass :=
  match m with Model c _ _ => c end.

Definition attributes (m : model) : gmap string field :=
  match m with Model _ a _ => a end.

(** The [attribute_defaults] dictionary each [__init__] declares, in
    declaration order. *)
Definition attribute_defaults (c : ModelClass) : list (string * field) :=
  (λ name, (name, FVal VNone)) <$>
  match c with
  | Report =>
      ["description"; "total_entries"; "hours"; "billable_hours";
       "billable_value"]
  | User => ["id"; "email"; "first_name"; "last_name"]
  | Account => ["id"; "name"]
  | Contact =>
      ["id"; "budget_type"; "budget_frequency"; "budget_target";
       "budget_progress"; "default_rate_dollars"; "pinned"; "name";
       "short_code"; "active"]
  | Project =>
      ["id"; "budget_type"; "budget_frequency"; "budget_target";
       "budget_progress"; "default_rate_dollars"; "pinned"; "name";
       "contact_id"; "short_code"; "active"; "hidden"; "description"]
  | Task =>
      ["id"; "budget_type"; "budget_frequency"; "budget_target";
       "budget_progress"; "default_rate_dollars"; "pinned"; "short_code";
       "active"; "hidden"; "description"; "has_detail"]
  | TimeEntry =>
      ["id"; "account_id"; "description"; "duration"; "contact_id";
       "project_id"; "task_ids"; "invoice_id"; "logged_at"]
  | Dock =>
      ["id"; "account_id"; "description"; "duration"; "contact_id";
       "project_id"; "task_ids"; "timer_active"]
  end.

Definition declared (c : ModelClass) : list string :=
  (attribute_defaults c).*1.

(** [getattr(self, key, None)] for a declared [key] of an instance as a
    constructor leaves it, with every declared attribute set.  On an instance
    from which a declared attribute was deleted afterwards the code raises
    [ClientException] (through [__getattr__]) where this reads [None]: such
    instances are outside the model, and the statements about what an
    instance stores are made on [attributes]. *)
Definition getattr (m : model) (key : string) : field :=
  default (FVal VNone) (attributes m !! key).

Definition setattr (m : model) (key : string) (x : field) : model :=
  match m with Model c a j => Model c (<[key := x]> a) j end.

(** The body every [__init__] shares:
    [for attribute, default in self.attribute_defaults.items():
       setattr(self, attribute, kwargs.get(attribute, default))]. *)
Definition init (c : ModelClass) (kwargs : gmap string field) : model :=
  foldl (λ self '(attribute, dflt),
           setattr self attribute (default dflt (kwargs !! attribute)))
        (Model c ∅ None) (attribute_defaults c).

(** Calling the class with keyword arguments [kwargs].  The receiver is
    bound to the parameter named [self], so a keyword of that name is
    rejected by the call itself (TypeError: got multiple values for
    argument 'self'). *)
Definition construct (c : ModelClass) (kwargs : gmap string field)
    : outcome model :=
  if decide ("self" ∈ dom kwargs) then Raise TypeError
  else Ret (init c kwargs).

(** What [to_dict] stores under one key, if anything: the three branches of
    its loop body.  [to_dict] is the recursive call on nested instances. *)
Definition to_dict_entry (to_dict : model → gmap string value) (x : field)
    : option value :=
  let expand (obj : item) : value :=
    match obj with
    | IModel m => VDict (to_dict m)
    | IVal v => v
    end in
  match x with
  | FSeq _ items => Some (VList (expand <$> items))
  | FVal (VList l) | FVal (VTuple l) | FVal (VSet l) => Some (VList l)
  | FModel m => Some (VDict (to_dict m))
  | FVal v => if truthy v then Some v else None
  end.

(** [BaseModel.to_dict]: the loop over [attribute_defaults], filling [data].
    [entries] holds, for each attribute, what the loop body stores for it;
    the loop reads it under each declared key ([to_dict_lookup] below gives
    the equation key by key). *)
Fixpoint to_dict (self : model) : gmap string value :=
  match self with
  | Model c attrs _ =>
      let entries := omap (to_dict_entry to_dict) attrs in
      foldl (λ data '(key, _),
               match entries !! key with
               | Some x => <[key := x]> data
               | None => data
               end)
            ∅ (attribute_defaults c)
  end.

(** The entry [to_dict] makes for an attribute value. *)
Definition serialized (x : field) : option value := to_dict_entry to_dict x.

(** [isinstance(x, (list, tuple, set))] *)
Definition is_collection (x : field) : bool :=
  match x with
  | FSeq _ _ | FVal (VList _) | FVal (VTuple _) | FVal (VSet _) => true
  | _ => false
  end.

(** An empty list, tuple or set. *)
Definition is_empty_collection (x : field) : bool :=
  match x with
  | FSeq _ [] | FVal (VList []) | FVal (VTuple []) | FVal (VSet []) => true
  | _ => false
  end.

(** Python truth value of an attribute value.  An instance is true: the
    model classes define neither [__bool__] nor [__len__]. *)
Definition field_truthy (x : field) : bool :=
  match x with
  | FVal v => truthy v
  | FModel _ => true
  | FSeq _ items => negb (bool_decide (items = []))
  end.

(** [BaseModel.__eq__]: [_value.to_dict() == self.to_dict()]. *)
Definition model_eq (self _value : model) : bool :=
  dict_eqb py_eqb (to_dict _value) (to_dict self).

(** [BaseModel.__ne__] *)
Definition model_ne (self _value : model) : bool :=
  negb (model_eq self _value).

(** What [_create_from_dict] returns. *)
Inductive created :=
  | CNone
  | COne (obj : model)
  | CMany (objs : list model).

Definition with_json (_data : value) (m : model) : model :=
  match m with Model c a _ => Model c a (Some _data) end.

(** Calling the class with a decoded json value unpacked as its keyword
    arguments: only a mapping can be unpacked. *)
Definition construct_from (c : ModelClass) (v : value) : outcome model :=
  match v with
  | VDict d => construct c (FVal <$> d)
  | _ => Raise TypeError
  end.

Fixpoint construct_each (c : ModelClass) (_data : value) (l : list value)
    : outcome (list model) :=
  match l with
  | [] => Ret []
  | v :: l =>
      match construct_from c v with
      | Raise e => Raise e
      | Ret class_obj =>
          match construct_each c _data l with
          | Raise e => Raise e
          | Ret obj_list => Ret (with_json _data class_obj :: obj_list)
          end
      end
  end.

(** [BaseModel._create_from_dict(cls, _data, **kwargs)].  A keyword named
    like one of its own parameters, [cls] or [_data], is rejected by the call
    itself, before the body runs (TypeError: got multiple values for
    argument). *)
Definition _create_from_dict (c : ModelClass) (_data : value)
    (kwargs : gmap string value) : outcome created :=
  if bool_decide (is_Some (kwargs !! "cls") ∨ is_Some (kwargs !! "_data"))
  then Raise TypeError else
  match _data with
  | VNone => Ret CNone
  | VDict d =>
      (* json_data = _data.copy(); json_data[key] = value for each kwarg *)
      let json_data := kwargs ∪ d in
      match construct c (FVal <$> json_data) with
      | Raise e => Raise e
      | Ret class_obj => Ret (COne (with_json _data class_obj))
      end
  | VList l =>
      if bool_decide (kwargs = ∅) then
        match construct_each c _data l with
        | Raise e => Raise e
        | Ret obj_list => Ret (CMany obj_list)
        end
      else Raise TypeError (* a list is not indexed by a keyword name *)
  | VSet _ => Raise TypeError (* has copy(), but is no list and no mapping *)
  | _ => Raise AttributeError (* no copy() method *)
  end.

(** The instance the factory builds from one json object [d]. *)
Definition decoded (c : ModelClass) (d : gmap string value) : model :=
  with_json (VDict d) (init c (FVal <$> d)).

(** ** Endpoints ([endpoints.py]) *)

Definition API_PATH : gmap string string :=
  list_to_map
    [ ("users",           "/api/v1/users");
      ("current_user",    "/api/v1/users/me");
      ("accounts",        "/api/v1/accounts");
      ("current_account", "/api/v1/accounts/current");
      ("contacts",        "/api/v1/contacts");
      ("projects",        "/api/v1/projects");
      ("tasks",           "/api/v1/tasks");
      ("current_entry",   "/api/v1/entries/current");
      ("entries",         "/api/v1/entries");
      ("dock",            "/api/v1/dock");
      ("reports",         "/api/v1/reports/generate") ].

(** ** URLs: the six components [urlparse] yields, and [geturl] *)

Record ParseResult := {
  url_scheme : string;
  url_netloc : string;
  url_path : string;
  url_params : string;
  url_query : string;
  url_fragment : string
}.

(** [url_parts._replace(query=q)] *)
Definition replace_query (q : string) (u : ParseResult) : ParseResult :=
  {| url_scheme := url_scheme u; url_netloc := url_netloc u;
     url_path := url_path u; url_params := url_params u;
     url_query := q; url_fragment := url_fragment u |}.

(** [url_parts._replace(path=p)] *)
Definition replace_path (p : string) (u : ParseResult) : ParseResult :=
  {| url_scheme := url_scheme u; url_netloc := url_netloc u;
     url_path := p; url_params := url_params u;
     url_query := url_query u; url_fragment := url_fragment u |}.

Definition nonempty (s : string) : bool := negb (String.eqb s "").

Definition starts_with (p s : string) : bool := String.prefix p s.

(** The schemes [urllib.parse] lists in [uses_netloc]. *)
Definition uses_netloc : list string :=
  [""; "ftp"; "http"; "gopher"; "nntp"; "telnet"; "imap"; "wais"; "file";
   "mms"; "https"; "shttp"; "snews"; "prospero"; "rtsp"; "rtspu"; "rsync";
   "svn"; "svn+ssh"; "sftp"; "nfs"; "git"; "git+ssh"; "ws"; "wss"].

(** [urllib.parse.urlunsplit] *)
Definition urlunsplit (scheme netloc url query fragment : string) : string :=
  let url :=
    if nonempty netloc
       || (nonempty scheme && bool_decide (scheme ∈ uses_netloc)
           && negb (starts_with "//" url))
    then
      let url :=
        if nonempty url && negb (starts_with "/" url) then "/" ++ url
        else url in
      "//" ++ netloc ++ url
    else url in
  let url := if nonempty scheme then scheme ++ ":" ++ url else url in
  let url := if nonempty query then url ++ "?" ++ query else url in
  let url := if nonempty fragment then url ++ "#" ++ fragment else url in
  url.

(** [ParseResult.geturl], that is [urllib.parse.urlunparse] *)
Definition geturl (u : ParseResult) : string :=
  let url :=
    if nonempty (url_params u) then url_path u ++ ";" ++ url_params u
    else url_path u in
  urlunsplit (url_scheme u) (url_netloc u) url (url_query u) (url_fragment u).

(** [str.lower] on ASCII text: the letters A to Z are lowered, every other
    character of ASCII text is left as it is.  Text with other characters,
    which [str.lower] may change as well, is outside the model: where text of
    the caller goes through [lower], the statements assume it is ASCII
    ([is_ascii]). *)
Definition lower_ascii (c : ascii) : ascii :=
  let n := N_of_ascii c in
  if ((65 <=? n) && (n <=? 90))%N then ascii_of_N (n + 32) else c.

Fixpoint lower (s : string) : string :=
  match s with
  | EmptyString => EmptyString
  | String c s => String (lower_ascii c) (lower s)
  end.

(** What the facade appends to a path: a numeric id or a fixed word. *)
Inductive path_variable :=
  | PVInt (n : Z)
  | PVStr (s : string).

(** [str(path_var)], as the f-string formats it. *)
Definition str (v : path_variable) : string :=
  match v with
  | PVInt n => pretty n
  | PVStr s => s
  end.

(** ** The transport and the other collaborators *)

Record Request := {
  req_method : string;
  req_url : string;
  req_headers : gmap string string;
  req_data : option string
}.

(** A response: its status code and what [json()] decodes from its body
    ([None] when the body is no json document). *)
Record Response := {
  status_code : Z;
  json_body : option value
}.

(** [Response.raise_for_status] raises [HTTPError] on the client-error and
    server-error statuses. *)
Definition raises_for_status (r : Response) : bool :=
  (400 <=? status_code r) && (status_code r <? 600).

(** What the library takes from outside: the json encoder, the query-string
    encoder, the HTTP transport (whose answer may depend on the requests it
    has served), and the constant [BASE_URL] of [constants.py], which is not
    among the sources, as [urlparse] splits it. *)
Class Collaborators := {
  json_dumps : gmap string value → string;
  urlencode : gmap string value → string;
  request : list Request → Request → Response;
  BASE_URL : ParseResult
}.

(** ** The call layer ([api.py]) *)

(** Header dictionaries are objects on a heap: [self.headers] is a reference,
    and [request_headers = self.headers] copies the reference, not the
    dictionary. *)
Definition loc := nat.

(** The state a run threads along: the heap of header dictionaries and the
    requests handed to the transport so far, oldest first. *)
Record world := {
  heap : gmap loc (gmap string string);
  sent : list Request
}.

Definition new_world : world := {| heap := ∅; sent := [] |}.

(** A method of the call layer: it changes the world, and returns or
    raises.  An exception leaves the changes made before it in place. *)
Definition M (A : Type) : Type := world → outcome A * world.

Definition ret {A} (a : A) : M A := λ w, (Ret a, w).

Definition throw {A} (e : exn) : M A := λ w, (Raise e, w).

Definition bind {A B} (c : M A) (k : A → M B) : M B :=
  λ w, match c w with
       | (Ret a, w') => k a w'
       | (Raise e, w') => (Raise e, w')
       end.

Definition lift {A} (o : outcome A) : M A := λ w, (o, w).

Notation "'let*' x := c1 'in' c2" := (bind c1 (λ x, c2))
  (at level 10, x name, c1 at level 100, c2 at level 200).

(** A new dictionary object. *)
Definition alloc (d : gmap string string) : M loc :=
  λ w, let l := fresh (dom (heap w)) in
       (Ret l, {| heap := <[l := d]> (heap w); sent := sent w |}).

(** The dictionary a reference points to. *)
Definition deref (l : loc) (w : world) : gmap string string :=
  default ∅ (heap w !! l).

(** [d[key] = x] through the reference [l]. *)
Definition setitem (l : loc) (key x : string) : M unit :=
  λ w, (Ret tt, {| heap := <[l := <[key := x]> (deref l w)]> (heap w);
                   sent := sent w |}).

Record MinuteDockCall := {
  api_key : string;
  account_id : option string;
  headers : loc
}.

(** [MinuteDockCall.__init__] *)
Definition MinuteDockCall_init (api_key : string) (account_id : option string)
    : M MinuteDockCall :=
  let* h := alloc (match account_id with
                   | None => {[ "X-API-Key" := api_key ]}
                   | Some id =>
                       <[ "X-Account-ID" := id ]> {[ "X-API-Key" := api_key ]}
                   end) in
  ret {| api_key := api_key; account_id := account_id; headers := h |}.

(** [MinuteDock.__init__] only calls the one above. *)
Definition MinuteDock_init := MinuteDockCall_init.

(** The keyword arguments the facade passes to [_get], [_post] and [_put],
    as written at the call site; [kwargs.get(name, None)] reads one. *)
Inductive keyword :=
  | path_ (p : string)
  | path_var_ (v : path_variable)
  | id_ (v : path_variable)
  | params_ (d : gmap string value)
  | payload_ (d : gmap string value).

Definition kwargs := list keyword.

Definition get_path (kw : kwargs) : option string :=
  head (omap (λ k, match k with path_ p => Some p | _ => None end) kw).

Definition get_path_var (kw : kwargs) : option path_variable :=
  head (omap (λ k, match k with path_var_ v => Some v | _ => None end) kw).

Definition get_id (kw : kwargs) : option path_variable :=
  head (omap (λ k, match k with id_ v => Some v | _ => None end) kw).

Definition get_params (kw : kwargs) : option (gmap string value) :=
  head (omap (λ k, match k with params_ d => Some d | _ => None end) kw).

Definition get_payload (kw : kwargs) : option (gmap string value) :=
  head (omap (λ k, match k with payload_ d => Some d | _ => None end) kw).

(** A dictionary display [{k1: v1, ...}] with distinct keys. *)
Definition dict (items : list (string * value)) : gmap string value :=
  list_to_map items.

Section CallLayer.
Context `{Collaborators}.

(** [MinuteDockCall.__remove_none_values] *)
Definition remove_none_values (data : gmap string value) : string :=
  json_dumps (filter (λ kv, is_none kv.2 = false) data).

(** [MinuteDockCall.__api_url] *)
Definition api_url (path : option string) (path_var : option path_variable)
    (params : option (gmap string value)) : outcome string :=
  match path with
  | Some path =>
      let url_parts := BASE_URL in
      let url_parts :=
        match params with
        | Some params => replace_query (urlencode params) url_parts
        | None => url_parts
        end in
      let path :=
        match path_var with
        | Some path_var => path ++ "/" ++ str path_var
        | None => path
        end in
      let url_parts := replace_path path url_parts in
      Ret (lower (geturl url_parts))
  | None => Raise (ClientException "path must not be None.")
  end.

(** The call [request(method=.., url=.., headers=.., data=..)]: the
    transport reads the header dictionary behind the reference, answers,
    and the request is recorded as sent.  The transport always answers:
    connection failures are not part of the model. *)
Definition do_request (method url : string) (headers : loc)
    (data : option string) : M Response :=
  λ w, let r := {| req_method := method; req_url := url;
                   req_headers := deref headers w; req_data := data |} in
       (Ret (request (sent w) r),
        {| heap := heap w; sent := sent w ++ [r] |}).

(** [MinuteDockCall._make_request] *)
Definition _make_request (self : MinuteDockCall) (method path : string)
    (payload : option (gmap string value)) : M value :=
  let request_headers := headers self in
  let* request_payload :=
    match payload with
    | Some payload =>
        let request_payload := remove_none_values payload in
        let* _ := setitem request_headers "Content-Type" "application/json" in
        ret (Some request_payload)
    | None => ret None
    end in
  let* md_response := do_request method path request_headers request_payload in
  if raises_for_status md_response
  then throw (SystemExit (status_code md_response))
  else match json_body md_response with
       | Some v => ret v
       | None => throw JSONDecodeError
       end.

(** The world after the header write of [_make_request], if any. *)
Definition after_header_write (self : MinuteDockCall)
    (payload : option (gmap string value)) (w : world) : world :=
  match payload with
  | Some _ =>
      {| heap := <[headers self :=
                     <["Content-Type" := "application/json"]>
                       (deref (headers self) w)]> (heap w);
         sent := sent w |}
  | None => w
  end.

(** The request [_make_request] hands to the transport. *)
Definition request_made (self : MinuteDockCall) (method path : string)
    (payload : option (gmap string value)) (w : world) : Request :=
  {| req_method := method; req_url := path;
     req_headers := deref (headers self) (after_header_write self payload w);
     req_data := remove_none_values <$> payload |}.

(** The query string as it follows the path: nothing without parameters,
    nothing when their encoding is empty. *)
Definition query_suffix (params : option (gmap string value)) : string :=
  match params with
  | Some params =>
      if nonempty (urlencode params) then "?" ++ urlencode params else ""
  | None => ""
  end.

(** [MinuteDockCall._handle_response] *)
Definition _handle_response (cls : ModelClass) (response : value)
    : M created :=
  lift (_create_from_dict cls response ∅).

(** [MinuteDockCall._get] *)
Definition _get (self : MinuteDockCall) (cls : ModelClass) (kw : kwargs)
    : M created :=
  let path := get_path kw in
  let path_var := get_path_var kw in
  let params := get_params kw in
  let* api_url := lift (api_url path path_var params) in
  let* md_response := _make_request self "GET" api_url None in
  _handle_response cls md_response.

(** [MinuteDockCall._post] *)
Definition _post (self : MinuteDockCall) (cls : ModelClass) (kw : kwargs)
    : M created :=
  let path := get_path kw in
  let path_var := get_path_var kw in
  let payload := get_payload kw in
  let* api_url := lift (api_url path path_var None) in
  let* md_response := _make_request self "POST" api_url payload in
  _handle_response cls md_response.

(** [MinuteDockCall._put] *)
Definition _put (self : MinuteDockCall) (cls : ModelClass) (kw : kwargs)
    : M created :=
  let path := get_path kw in
  let id := get_id kw in
  let payload := get_payload kw in
  let* api_url := lift (api_url path id None) in
  let* md_response := _make_request self "PUT" api_url payload in
  _handle_response cls md_response.

(** [_get], [_post] and [_put] end alike: make the request, hand the
    answer to the factory. *)
Definition request_then_handle (self : MinuteDockCall) (cls : ModelClass)
    (method path : string) (payload : option (gmap string value))
    : M created :=
  let* md_response := _make_request self method path payload in
  _handle_response cls md_response.

(** *** The facade: class [MinuteDock] *)

Definition get_report (self : MinuteDockCall)
    (users contacts projects tasks billable_only unbillable_only
     invoiced_only uninvoiced_only date_from date_to task_detail : value)
    : M created :=
  _post self Report
    [ path_ (API_PATH !!! "reports");
      params_ (dict
        [ ("users", users); ("contacts", contacts); ("projects", projects);
          ("tasks", tasks); ("billable_only", billable_only);
          ("unbillable_only", unbillable_only);
          ("invoiced_only", invoiced_only);
          ("uninvoiced_only", uninvoiced_only);
          ("from", date_from); ("to", date_to);
          ("task_detail", task_detail) ]) ].

Definition get_all_users (self : MinuteDockCall) (active : value)
    : M created :=
  _get self User
    [ path_ (API_PATH !!! "users"); params_ (dict [("active", active)]) ].

Definition get_current_user (self : MinuteDockCall) : M created :=
  _get self User [ path_ (API_PATH !!! "current_user") ].

Definition get_accounts (self : MinuteDockCall) : M created :=
  _get self Account [ path_ (API_PATH !!! "accounts") ].

Definition get_current_account (self : MinuteDockCall) : M created :=
  _get self Account [ path_ (API_PATH !!! "current_account") ].

Definition get_contact (self : MinuteDockCall) (id : Z) : M created :=
  _get self Contact
    [ path_var_ (PVInt id); path_ (API_PATH !!! "contacts") ].

Definition get_all_contacts (self : MinuteDockCall) (pinned active : value)
    : M created :=
  _get self Contact
    [ path_ (API_PATH !!! "contacts");
      params_ (dict [("pinned", pinned); ("active", active)]) ].

Definition contact_params
    (id budget_type budget_frequency budget_target budget_progress
     default_rate_dollars pinned name short_code active : value)
    : gmap string value :=
  dict [ ("id", id); ("budget_type", budget_type);
         ("budget_frequency", budget_frequency);
         ("budget_target", budget_target);
         ("budget_progress", budget_progress);
         ("default_rate_dollars", default_rate_dollars);
         ("pinned", pinned); ("name", name); ("short_code", short_code);
         ("active", active) ].

Definition create_contact (self : MinuteDockCall)
    (id budget_type budget_frequency budget_target budget_progress
     default_rate_dollars pinned name short_code active : value)
    : M created :=
  _post self Contact
    [ path_ (API_PATH !!! "contacts");
      params_ (contact_params id budget_type budget_frequency budget_target
                 budget_progress default_rate_dollars pinned name
                 short_code active) ].

Definition update_contact (self : MinuteDockCall) (id : Z)
    (budget_type budget_frequency budget_target budget_progress
     default_rate_dollars pinned name short_code active : value)
    : M created :=
  _put self Contact
    [ path_var_ (PVInt id);
      path_ (API_PATH !!! "contacts");
      params_ (contact_params (VInt id) budget_type budget_frequency
                 budget_target budget_progress default_rate_dollars pinned
                 name short_code active) ].

Definition get_project (self : MinuteDockCall) (id : Z) : M created :=
  _get self Project
    [ path_var_ (PVInt id); path_ (API_PATH !!! "projects") ].

Definition get_all_projects (self : MinuteDockCall) (pinned active : value)
    : M created :=
  _get self Project
    [ path_ (API_PATH !!! "projects");
      params_ (dict [("pinned", pinned); ("active", active)]) ].

(** The parameter dictionary that [create_project], [update_project],
    [create_task] and [update_task] each write out. *)
Definition project_params
    (id budget_type budget_frequency budget_target budget_progress
     default_rate_dollars pinned name contact_id short_code active hidden
     description : value) : gmap string value :=
  dict [ ("id", id); ("budget_type", budget_type);
         ("budget_frequency", budget_frequency);
         ("budget_target", budget_target);
         ("budget_progress", budget_progress);
         ("default_rate_dollars", default_rate_dollars);
         ("pinned", pinned); ("name", name); ("contact_id", contact_id);
         ("short_code", short_code); ("active", active);
         ("hidden", hidden); ("description", description) ].

Definition create_project (self : MinuteDockCall)
    (id budget_type budget_frequency budget_target budget_progress
     default_rate_dollars pinned name contact_id short_code active hidden
     description : value) : M created :=
  _post self Project
    [ path_ (API_PATH !!! "projects");
      params_ (project_params id budget_type budget_frequency budget_target
                 budget_progress default_rate_dollars pinned name contact_id
                 short_code active hidden description) ].

Definition update_project (self : MinuteDockCall) (id : Z)
    (budget_type budget_frequency budget_target budget_progress
     default_rate_dollars pinned name contact_id short_code active hidden
     description : value) : M created :=
  _put self Project
    [ path_var_ (PVInt id);
      path_ (API_PATH !!! "projects");
      params_ (project_params (VInt id) budget_type budget_frequency
                 budget_target budget_progress default_rate_dollars pinned
                 name contact_id short_code active hidden description) ].

Definition get_task (self : MinuteDockCall) (id : Z) : M created :=
  _get self Task [ id_ (PVInt id); path_ (API_PATH !!! "tasks") ].

Definition get_all_tasks (self : MinuteDockCall) (pinned active : value)
    : M created :=
  _get self Task
    [ path_ (API_PATH !!! "tasks");
      params_ (dict [("pinned", pinned); ("active", active)]) ].

Definition create_task (self : MinuteDockCall)
    (id budget_type budget_frequency budget_target budget_progress
     default_rate_dollars pinned name contact_id short_code active hidden
     description : value) : M created :=
  _post self Task
    [ path_ (API_PATH !!! "tasks");
      params_ (project_params id budget_type budget_frequency budget_target
                 budget_progress default_rate_dollars pinned name contact_id
                 short_code active hidden description) ].

Definition update_task (self : MinuteDockCall) (id : Z)
    (budget_type budget_frequency budget_target budget_progress
     default_rate_dollars pinned name contact_id short_code active hidden
     description : value) : M created :=
  _put self Task
    [ path_var_ (PVInt id);
      path_ (API_PATH !!! "tasks");
      params_ (project_params (VInt id) budget_type budget_frequency
                 budget_target budget_progress default_rate_dollars pinned
                 name contact_id short_code active hidden description) ].

Definition start_timer (self : MinuteDockCall) : M created :=
  _post self TimeEntry
    [ path_var_ (PVStr "start"); path_ (API_PATH !!! "current_entry") ].

Definition pause_timer (self : MinuteDockCall) : M created :=
  _post self TimeEntry
    [ path_var_ (PVStr "pause"); path_ (API_PATH !!! "current_entry") ].

Definition log_timer (self : MinuteDockCall) : M created :=
  _post self TimeEntry
    [ path_var_ (PVStr "log"); path_ (API_PATH !!! "current_entry") ].

Definition search_time_entries (self : MinuteDockCall)
    (date_from date_to limit offset users contacts projects tasks
     billable_only unbillable_only invoiced_only uninvoiced_only since
     : value) : M created :=
  _get self TimeEntry
    [ path_ (API_PATH !!! "entries");
      params_ (dict
        [ ("from", date_from); ("to", date_to); ("limit", limit);
          ("offset", offset); ("users", users); ("contacts", contacts);
          ("projects", projects); ("tasks", tasks);
          ("billable_only", billable_only);
          ("unbillable_only", unbillable_only);
          ("invoiced_only", invoiced_only);
          ("uninvoiced_only", uninvoiced_only); ("since", since) ]) ].

Definition time_entry_payload
    (id account_id description duration contact_id project_id task_ids
     invoice_id logged_at : value) : gmap string value :=
  dict [ ("id", id); ("account_id", account_id);
         ("description", description); ("duration", duration);
         ("contact_id", contact_id); ("project_id", project_id);
         ("task_ids", task_ids); ("invoice_id", invoice_id);
         ("logged_at", logged_at) ].

Definition create_time_entry (self : MinuteDockCall)
    (id account_id description duration contact_id project_id task_ids
     invoice_id logged_at : value) : M created :=
  _post self TimeEntry
    [ path_ (API_PATH !!! "entries");
      payload_ (time_entry_payload id account_id description duration
                  contact_id project_id task_ids invoice_id logged_at) ].

Definition update_time_entry (self : MinuteDockCall) (id : Z)
    (account_id description duration contact_id project_id task_ids
     invoice_id logged_at : value) : M created :=
  _put self TimeEntry
    [ path_var_ (PVInt id);
      path_ (API_PATH !!! "entries");
      payload_ (time_entry_payload (VInt id) account_id description
                  duration contact_id project_id task_ids invoice_id
                  logged_at) ].

(** What the dispatcher does with the answer to the one request [r] that
    the call sends: exit on an error status, hand the body to the factory
    otherwise. *)
Definition exits_or_hands_over (call : M created) (cls : ModelClass)
    (method url : string) (w : world) : Prop :=
  ∃ r,
    sent (call w).2 = (sent w ++ [r])%list
    ∧ req_method r = method ∧ req_url r = url
    ∧ let md_response := request (sent w) r in
      (call w).1
      = if (400 <=? status_code md_response)
           && (status_code md_response <? 600)
        then Raise (SystemExit (status_code md_response))
        else match json_body md_response with
             | Some body => _create_from_dict cls body ∅
             | None => Raise JSONDecodeError
             end.

End CallLayer.

(** *** The shape of a built URL *)

(** [BASE_URL] is a scheme and a host and nothing else: the fixed base
    authority of the specification. *)
Definition base_is_authority (u : ParseResult) : Prop :=
  url_scheme u ≠ "" ∧ url_netloc u ≠ "" ∧ url_params u = ""
  ∧ url_query u = "" ∧ url_fragment u = "".

(** A path as it follows the authority: with a leading slash. *)
Definition rooted (p : string) : string :=
  if starts_with "/" p then p else "/" ++ p.

(** *** What a call puts on the wire *)

(** The call sends exactly one request, and it has no body. *)
Definition sends_no_body {A} (call : M A) (w : world) : Prop :=
  ∃ r, sent (call w).2 = (sent w ++ [r])%list ∧ req_data r = None.

(** The call sends exactly one request, with the body [body]. *)
Definition sends_body {A} (call : M A) (w : world) (body : string) : Prop :=
  ∃ r, sent (call w).2 = (sent w ++ [r])%list ∧ req_data r = Some body.

(** What one sees of a sent request: verb, URL, [Content-Type], body. *)
Definition on_the_wire (r : Request)
    : string * string * option string * option string :=
  (req_method r, req_url r, req_headers r !! "Content-Type", req_data r).

(** The success statuses. *)
Definition is_2xx (status : Z) : bool := (200 <=? status) && (status <? 300).

(** Collaborators for the examples: a transport that answers every request
    with the status [status] and the json document [body], encoders that
    list the keys they are given, and a base URL. *)
Definition answering (status : Z) (body : value) : Collaborators := {|
  json_dumps := λ d, "{" ++ String.concat "," (map_to_list d).*1 ++ "}";
  urlencode := λ d, String.concat "&" (map_to_list d).*1;
  request := λ _ _, {| status_code := status; json_body := Some body |};
  BASE_URL := {| url_scheme := "https"; url_netloc := "minutedock.com";
                 url_path := ""; url_params := ""; url_query := "";
                 url_fragment := "" |}
|}.

(** *** What the mapping form leaves out *)

(** The plain values a field may hold and [to_dict] leaves out: [None],
    [False], 0, the empty string and the empty dictionary. *)
Definition left_out (v : value) : bool :=
  match v with
  | VNone | VBool false | VInt Z0 | VStr EmptyString => true
  | VDict d => bool_decide (d = ∅)
  | _ => false
  end.

(** How a plain value that is not left out appears in the mapping: a list,
    tuple or set as a list, anything else as it is. *)
Definition kept_as (v : value) : value :=
  match v with
  | VList l | VTuple l | VSet l => VList l
  | _ => v
  end.

(** What the mapping form of the entity decoded from the json object [d]
    as a [c] shows under the key [k]. *)
Definition shown_field (c : ModelClass) (d : gmap string value) (k : string)
    : option value :=
  if decide (k ∈ declared c) then
    match d !! k with
    | Some v => if left_out v then None else Some (kept_as v)
    | None => None
    end
  else None.

(** *** ASCII text and its letter case *)

(** One of the letters A to Z. *)
Definition is_capital (c : ascii) : bool :=
  let n := N_of_ascii c in ((65 <=? n) && (n <=? 90))%N.

Definition is_ascii_char (c : ascii) : bool := (N_of_ascii c <? 128)%N.

(** ASCII text: every character is below 128. *)
Fixpoint is_ascii (s : string) : bool :=
  match s with
  | EmptyString => true
  | String c s => is_ascii_char c && is_ascii s
  end.

(** Text without any of the letters A to Z. *)
Fixpoint no_capital (s : string) : bool :=
  match s with
  | EmptyString => true
  | String c s => negb (is_capital c) && no_capital s
  end.

(** [c] is what the character [c'] is in lower case: the small letter, 32
    places up, when [c'] is a capital letter, and [c'] itself otherwise. *)
Definition lowered_char (c c' : ascii) : bool :=
  if is_capital c' then (N_of_ascii c =? N_of_ascii c' + 32)%N
  else Ascii.eqb c c'.

(** [url] is [raw] in lower case, character by character. *)
Fixpoint lowered_from (url raw : string) : bool :=
  match url, raw with
  | EmptyString, EmptyString => true
  | String c url, String c' raw => lowered_char c c' && lowered_from url raw
  | _, _ => false
  end.


(** *** Notions for the further properties *)

(** A decoded value the class can be called with: a mapping without a key
    named [self]. *)
Definition unpackable (v : value) : bool :=
  match v with
  | VDict d => bool_decide ("self" ∉ dom d)
  | _ => false
  end.

(** The mapping a decoded json object is. *)
Definition mapping_of (v : value) : gmap string value :=
  match v with
  | VDict d => d
  | _ => ∅
  end.

(** The loop of [__remove_none_values], before the encoding:
    [_data = data.copy()], then [_data.pop(key)] for each item of [data]
    whose value is [None]. *)
Definition remove_none_loop (data : gmap string value) : gmap string value :=
  foldl (λ _data '(key, value),
           if is_none value then delete key _data else _data)
        data (map_to_list data).

(** The header dictionary of the client is on the heap and holds the
    credentials the client was built with. *)
Definition credentials_in_place (self : MinuteDockCall) (w : world) : Prop :=
  ∃ d, heap w !! headers self = Some d
       ∧ d !! "X-API-Key" = Some (api_key self)
       ∧ d !! "X-Account-ID" = account_id self.

(** One step of a run of the library: a client is built, or some client
    makes a request, directly or through a dispatcher. *)
Inductive step `{Collaborators} : world → world → Prop :=
  | step_init api_key account_id w :
      step w (MinuteDock_init api_key account_id w).2
  | step_make_request self method path payload w :
      step w (_make_request self method path payload w).2
  | step_get self cls kw w : step w (_get self cls kw w).2
  | step_post self cls kw w : step w (_post self cls kw w).2
  | step_put self cls kw w : step w (_put self cls kw w).2.

(** * Properties *)

(** ** Equality of data *)

Lemma list_eqb_refl {A} (f : A → A → bool) (l : list A) :
  Forall (λ x, f x x = true) l → list_eqb f l l = true.
Proof.
  induction 1 as [|x l Hx _ IH]; simpl; [done|].
  by rewrite Hx, IH.
Qed.

Lemma fold_andb_true (m : gmap string bool) :
  map_fold (λ _ (r : bool) acc, r && acc) true m = true
  ↔ map_Forall (λ _ r, r = true) m.
Proof.
  apply (map_fold_weak_ind
           (λ (b : bool) (m : gmap string bool),
              b = true ↔ map_Forall (λ _ r, r = true) m)).
  - split; [intros _; apply map_Forall_empty | done].
  - intros i x m' r Hi IH.
    rewrite map_Forall_insert by done.
    rewrite andb_true_iff. tauto.
Qed.

Lemma dict_eqb_spec {A B} (f : A → B → bool)
    (m1 : gmap string A) (m2 : gmap string B) :
  dict_eqb f m1 m2 = true ↔ ∀ k, agree f (m1 !! k) (m2 !! k).
Proof.
  unfold dict_eqb. rewrite fold_andb_true, map_Forall_lookup.
  split.
  - intros Hall k. specialize (Hall k). rewrite lookup_merge in Hall.
    unfold agree.
    destruct (m1 !! k) as [u|], (m2 !! k) as [v|]; simpl in *; try done.
    + by apply Hall.
    + by specialize (Hall false eq_refl).
    + by specialize (Hall false eq_refl).
  - intros Hagree k r. rewrite lookup_merge.
    specialize (Hagree k). unfold agree in Hagree.
    destruct (m1 !! k) as [u|], (m2 !! k) as [v|]; simpl; try done.
    congruence.
Qed.

Lemma vsize_elem (x : value) (l : list value) :
  x ∈ l → (vsize x ≤ foldr (λ x n, vsize x + n) 0 l)%nat.
Proof.
  induction 1 as [x l|x y l _ IH]; simpl; lia.
Qed.

Lemma vsize_lookup (d : gmap string value) (k : string) (x : value) :
  d !! k = Some x → (vsize x ≤ map_fold (λ _ x n, vsize x + n) 0 d)%nat.
Proof.
  intros Hk.
  rewrite <-(insert_delete_id d k x Hk).
  rewrite map_fold_insert_L.
  - lia.
  - intros; lia.
  - apply lookup_delete_eq.
Qed.

(** Induction on values, with the hypothesis for every member of a
    collection. *)
Lemma value_nested_ind (P : value → Prop) :
  P VNone →
  (∀ b, P (VBool b)) →
  (∀ n, P (VInt n)) →
  (∀ s, P (VStr s)) →
  (∀ l, Forall P l → P (VList l)) →
  (∀ l, Forall P l → P (VTuple l)) →
  (∀ l, Forall P l → P (VSet l)) →
  (∀ d, map_Forall (λ _, P) d → P (VDict d)) →
  ∀ v, P v.
Proof.
  intros HN HB HI HS HL HT HSet HD v.
  remember (vsize v) as n eqn:Hn.
  revert v Hn. induction n as [n IH] using lt_wf_ind. intros v ->.
  assert (Hmem : ∀ l, (foldr (λ x n, vsize x + n) 0 l < vsize v)%nat →
                      Forall P l).
  { intros l Hlt. apply Forall_forall. intros x Hx.
    apply (IH (vsize x)); [|done].
    pose proof (vsize_elem x l Hx). lia. }
  destruct v; simpl in *; auto.
  apply HD. intros k x Hk.
  apply (IH (vsize x)); [|done].
  pose proof (vsize_lookup d k x Hk). lia.
Qed.

Lemma py_eqb_refl (v : value) : py_eqb v v = true.
Proof.
  induction v as [| b | n | s | l IH | l IH | l IH | d IH]
    using value_nested_ind; simpl.
  - done.
  - by apply bool_decide_eq_true.
  - by apply bool_decide_eq_true.
  - apply String.eqb_refl.
  - by apply list_eqb_refl.
  - by apply list_eqb_refl.
  - assert (Hin : forallb (λ x, existsb (λ y, py_eqb x y) l) l = true).
    { apply forallb_forall. intros x Hx. apply existsb_exists.
      exists x. split; [done|].
      rewrite Forall_forall in IH. apply IH. by apply list_elem_of_In. }
    assert (Hin' : forallb (λ y, existsb (λ x, py_eqb x y) l) l = true).
    { apply forallb_forall. intros x Hx. apply existsb_exists.
      exists x. split; [done|].
      rewrite Forall_forall in IH. apply IH. by apply list_elem_of_In. }
    by rewrite Hin, Hin'.
  - apply dict_eqb_spec. intros k. unfold agree.
    destruct (d !! k) as [x|] eqn:Hk; [|done].
    by apply (IH k x).
Qed.

(** ** Construction and attribute access *)

Lemma declared_NoDup (c : ModelClass) : NoDup (declared c).
Proof. destruct c; by apply (bool_decide_unpack _); vm_compute. Qed.

Lemma self_not_declared (c : ModelClass) : "self" ∉ declared c.
Proof. destruct c; by apply (bool_decide_unpack _); vm_compute. Qed.


Lemma class_of_setattr (m : model) k x : class_of (setattr m k x) = class_of m.
Proof. by destruct m. Qed.

Lemma init_foldl_class (kwargs : gmap string field) l m :
  class_of (foldl (λ self '(attribute, dflt),
                     setattr self attribute (default dflt (kwargs !! attribute)))
                  m l) = class_of m.
Proof.
  revert m. induction l as [|[k d] l IH]; intros m; simpl; [done|].
  by rewrite IH, class_of_setattr.
Qed.

Lemma class_of_init c kwargs : class_of (init c kwargs) = c.
Proof. unfold init. by rewrite init_foldl_class. Qed.

Lemma init_foldl_lookup (kwargs : gmap string field) (d : field)
    (names : list string) (m : model) (k : string) :
  attributes (foldl (λ self '(attribute, dflt),
                       setattr self attribute
                         (default dflt (kwargs !! attribute)))
                    m ((λ name, (name, d)) <$> names)) !! k
  = if decide (k ∈ names) then Some (default d (kwargs !! k))
    else attributes m !! k.
Proof.
  revert m. induction names as [|n names IH]; intros m; simpl.
  - done.
  - rewrite IH. destruct (decide (k ∈ names)) as [Hin|Hnin].
    + rewrite decide_True; [done | by right].
    + destruct m as [c a j]; simpl.
      destruct (decide (k = n)) as [->|Hne].
      * rewrite decide_True by left. by rewrite lookup_insert_eq.
      * rewrite decide_False by (rewrite elem_of_cons; tauto).
        by rewrite lookup_insert_ne.
Qed.

Lemma declared_names (c : ModelClass) :
  ∃ names, attribute_defaults c = (λ name, (name, FVal VNone)) <$> names
           ∧ declared c = names.
Proof.
  unfold declared, attribute_defaults.
  eexists; split; [reflexivity|].
  rewrite <-list_fmap_compose. apply list_fmap_id.
Qed.

(** After [__init__], a declared attribute holds the keyword argument of
    its name, or [None]; nothing else is set. *)
Lemma init_lookup c kwargs k :
  attributes (init c kwargs) !! k
  = if decide (k ∈ declared c) then Some (default (FVal VNone) (kwargs !! k))
    else None.
Proof.
  unfold init. destruct (declared_names c) as (names & -> & ->).
  by rewrite init_foldl_lookup.
Qed.

Lemma getattr_init c kwargs k :
  getattr (init c kwargs) k
  = if decide (k ∈ declared c) then default (FVal VNone) (kwargs !! k)
    else FVal VNone.
Proof.
  unfold getattr. rewrite init_lookup. by destruct (decide _).
Qed.

(** ** Serialization *)

Lemma to_dict_foldl_lookup (entries : gmap string value)
    (l : list (string * field)) (acc : gmap string value) (k : string) :
  foldl (λ data '(key, _),
           match entries !! key with
           | Some x => <[key := x]> data
           | None => data
           end) acc l !! k
  = if decide (k ∈ l.*1)
    then match entries !! k with Some x => Some x | None => acc !! k end
    else acc !! k.
Proof.
  revert acc. induction l as [|[n d] l IH]; intros acc; simpl.
  - done.
  - rewrite IH. destruct (decide (k ∈ l.*1)) as [Hin|Hnin].
    + rewrite decide_True by (by right).
      destruct (entries !! k) as [x|] eqn:Hk; [done|].
      destruct (entries !! n) as [y|] eqn:Hn; [|done].
      rewrite lookup_insert_ne; [done | congruence].
    + destruct (decide (k = n)) as [->|Hne].
      * rewrite decide_True by left.
        destruct (entries !! n); [by rewrite lookup_insert_eq | done].
      * rewrite decide_False by (rewrite elem_of_cons; tauto).
        destruct (entries !! n); [by rewrite lookup_insert_ne | done].
Qed.

(** What [to_dict] holds under a key: the entry of the attribute when the
    key is declared, nothing otherwise. *)
Lemma to_dict_lookup (m : model) (k : string) :
  to_dict m !! k
  = if decide (k ∈ declared (class_of m))
    then to_dict_entry to_dict (getattr m k)
    else None.
Proof.
  destruct m as [c attrs j]. cbn [to_dict class_of].
  rewrite to_dict_foldl_lookup. fold (declared c).
  destruct (decide (k ∈ declared c)); [|apply lookup_empty].
  rewrite lookup_empty, lookup_omap. unfold getattr; simpl.
  destruct (attrs !! k) as [x|]; simpl; [|done].
  by destruct (to_dict_entry to_dict x).
Qed.

Lemma serialized_None : serialized (FVal VNone) = None.
Proof. done. Qed.

Lemma to_dict_lookup_declared (m : model) (k : string) :
  k ∈ declared (class_of m) → to_dict m !! k = serialized (getattr m k).
Proof. intros Hk. rewrite to_dict_lookup. by rewrite decide_True. Qed.

Lemma to_dict_lookup_undeclared (m : model) (k : string) :
  k ∉ declared (class_of m) → to_dict m !! k = None.
Proof. intros Hk. rewrite to_dict_lookup. by rewrite decide_False. Qed.

(** The [_json] document is no declared attribute: it changes neither the
    attributes nor the serialization. *)
Lemma getattr_with_json (v : value) (m : model) (k : string) :
  getattr (with_json v m) k = getattr m k.
Proof. by destruct m. Qed.


Lemma to_dict_with_json (v : value) (m : model) :
  to_dict (with_json v m) = to_dict m.
Proof. by destruct m. Qed.

(** ** The record factory *)

Lemma create_from_object (c : ModelClass) (d : gmap string value) :
  "self" ∉ dom d →
  _create_from_dict c (VDict d) ∅ = Ret (COne (decoded c d)).
Proof.
  intros Hself. unfold _create_from_dict, construct.
  rewrite (left_id_L ∅ (∪) d).
  rewrite decide_False; [done|]. by rewrite dom_fmap_L.
Qed.

Lemma getattr_decoded (c : ModelClass) (d : gmap string value) (k : string) :
  k ∈ declared c →
  getattr (decoded c d) k
  = match d !! k with Some v => FVal v | None => FVal VNone end.
Proof.
  intros Hk. unfold decoded.
  rewrite getattr_with_json, getattr_init, decide_True by done.
  rewrite lookup_fmap. by destruct (d !! k).
Qed.





(** ** Entity equality *)

Lemma model_eq_spec (a b : model) :
  model_eq a b = true ↔ ∀ k, agree py_eqb (to_dict b !! k) (to_dict a !! k).
Proof. apply dict_eqb_spec. Qed.

Lemma agree_refl (x : option value) : agree py_eqb x x.
Proof. destruct x; simpl; [apply py_eqb_refl | done]. Qed.

Lemma to_dict_eq_model_eq (a b : model) :
  to_dict a = to_dict b → model_eq a b = true.
Proof.
  intros Heq. apply model_eq_spec. intros k. rewrite Heq. apply agree_refl.
Qed.

Lemma to_dict_init_lookup (c : ModelClass) (kwargs : gmap string field)
    (k : string) :
  to_dict (init c kwargs) !! k
  = if decide (k ∈ declared c)
    then serialized (default (FVal VNone) (kwargs !! k))
    else None.
Proof.
  rewrite to_dict_lookup, class_of_init.
  destruct (decide (k ∈ declared c)); [|done].
  by rewrite getattr_init, decide_True.
Qed.

Lemma serialized_plain (v : value) :
  serialized (FVal v) = if left_out v then None else Some (kept_as v).
Proof.
  destruct v as [| [] | [] | [] | | | | d]; try done.
  unfold serialized; simpl. by destruct (bool_decide (d = ∅)).
Qed.

Lemma to_dict_decoded_lookup (c : ModelClass) (d : gmap string value)
    (k : string) :
  to_dict (decoded c d) !! k = shown_field c d k.
Proof.
  unfold decoded, shown_field.
  rewrite to_dict_with_json, to_dict_init_lookup.
  destruct (decide (k ∈ declared c)); [|done].
  rewrite lookup_fmap. destruct (d !! k) as [v|]; simpl; [|done].
  apply serialized_plain.
Qed.

(** C3, as the code has it.  Two entities, of any types, compare equal
    exactly when their mapping forms agree key by key.  The mapping form
    leaves out a declared field exactly when it holds [None], [False], 0,
    the empty string or the empty dictionary; it shows a list, tuple or set
    as a list and any other plain value as it is.  So two decoded entities compare equal exactly when
    what their mapping forms show agrees; with identical field values they
    compare equal; and when a field shows on both sides with unequal
    values, or shows on one side only, they compare unequal. *)
Theorem C3_equal_iff_mapping_forms_agree :
  (∀ a b : model,
     model_eq a b = true
     ↔ ∀ k, agree py_eqb (to_dict b !! k) (to_dict a !! k))
  ∧ (∀ (a : model) (k : string) (v : value),
       k ∈ declared (class_of a) → attributes a !! k = Some (FVal v) →
       to_dict a !! k = if left_out v then None else Some (kept_as v))
  ∧ (∀ (a : model) (k : string) (x : field),
       k ∈ declared (class_of a) → attributes a !! k = Some x →
       to_dict a !! k = None ↔ ∃ v, x = FVal v ∧ left_out v = true)
  ∧ (∀ (c1 c2 : ModelClass) (d1 d2 : gmap string value),
       model_eq (decoded c1 d1) (decoded c2 d2) = true
       ↔ ∀ k, agree py_eqb (shown_field c2 d2 k) (shown_field c1 d1 k))
  ∧ (∀ (c : ModelClass) (d1 d2 : gmap string value),
       (∀ k, k ∈ declared c → d1 !! k = d2 !! k) →
       model_eq (decoded c d1) (decoded c d2) = true)
  ∧ (∀ (c1 c2 : ModelClass) (d1 d2 : gmap string value) (k : string)
       (v1 v2 : value),
       k ∈ declared c1 → k ∈ declared c2 →
       d1 !! k = Some v1 → d2 !! k = Some v2 →
       left_out v1 = false → left_out v2 = false →
       py_eqb (kept_as v2) (kept_as v1) = false →
       model_eq (decoded c1 d1) (decoded c2 d2) = false)
  ∧ (∀ (c1 c2 : ModelClass) (d1 d2 : gmap string value) (k : string)
       (v1 : value),
       k ∈ declared c1 → d1 !! k = Some v1 → left_out v1 = false →
       shown_field c2 d2 k = None →
       model_eq (decoded c1 d1) (decoded c2 d2) = false
       ∧ model_eq (decoded c2 d2) (decoded c1 d1) = false).
Proof.
  assert (Hdecoded : ∀ c1 c2 d1 d2,
     model_eq (decoded c1 d1) (decoded c2 d2) = true
     ↔ ∀ k, agree py_eqb (shown_field c2 d2 k) (shown_field c1 d1 k)).
  { intros c1 c2 d1 d2. rewrite model_eq_spec.
    by setoid_rewrite to_dict_decoded_lookup. }
  split; [apply model_eq_spec|].
  split; [|split; [|split; [done|split; [|split]]]].
  - intros a k v Hk Hv. rewrite to_dict_lookup_declared by done.
    unfold getattr. rewrite Hv. apply serialized_plain.
  - intros a k x Hk Hx. rewrite to_dict_lookup_declared by done.
    unfold getattr. rewrite Hx. cbn [default from_option id].
    destruct x as [v | m | kind items].
    + rewrite serialized_plain. destruct (left_out v) eqn:Hleft.
      * split; [by exists v|done].
      * split; [done|]. intros (v' & [= <-] & Hv'). congruence.
    + split; [done|]. by intros (v & ? & _).
    + split; [done|]. by intros (v & ? & _).
  - intros c d1 d2 Hsame. apply Hdecoded. intros k. unfold shown_field.
    destruct (decide (k ∈ declared c)) as [Hk|Hk]; [|done].
    rewrite (Hsame k Hk). apply agree_refl.
  - intros c1 c2 d1 d2 k v1 v2 Hk1 Hk2 Hv1 Hv2 Hl1 Hl2 Hne.
    apply not_true_iff_false. intros Heq.
    pose proof (proj1 (Hdecoded c1 c2 d1 d2) Heq k) as Hagree.
    unfold shown_field in Hagree.
    rewrite !decide_True, Hv1, Hv2, Hl1, Hl2 in Hagree by done.
    simpl in Hagree. congruence.
  - intros c1 c2 d1 d2 k v1 Hk1 Hv1 Hl1 Hnone.
    assert (Hshown : shown_field c1 d1 k = Some (kept_as v1)).
    { unfold shown_field. by rewrite decide_True, Hv1, Hl1. }
    split; apply not_true_iff_false; intros Heq.
    + pose proof (proj1 (Hdecoded c1 c2 d1 d2) Heq k) as Hagree.
      by rewrite Hnone, Hshown in Hagree.
    + pose proof (proj1 (Hdecoded c2 c1 d2 d1) Heq k) as Hagree.
      by rewrite Hnone, Hshown in Hagree.
Qed.

Lemma C3_equal_iff_mapping_forms_agree_witness :
  model_eq (decoded Contact {[ "name" := VStr "Acme" ]})
           (decoded Contact {[ "name" := VStr "Zenith" ]}) = false
  ∧ model_eq (decoded Contact {[ "name" := VStr "Acme"; "id" := VInt 0 ]})
             (decoded Contact {[ "name" := VStr "Acme"; "id" := VInt 0 ]})
    = true.
Proof.
  destruct C3_equal_iff_mapping_forms_agree
    as (_ & _ & _ & _ & Hsame & Hdiffer & _).
  split.
  - apply (Hdiffer Contact Contact {[ "name" := VStr "Acme" ]}
             {[ "name" := VStr "Zenith" ]} "name" (VStr "Acme")
             (VStr "Zenith"));
      first [reflexivity | by apply (bool_decide_unpack _); vm_compute].
  - apply Hsame. reflexivity.
Defined.

(** C3 as stated fails: the entity decoded from [{"active": false}] and the
    one decoded from [{}] differ in the field [active] ([False] against
    [None], which are not equal), and yet compare equal. *)
Lemma C3_counterexample_falsy_field :
  let a := decoded Contact {[ "active" := VBool false ]} in
  let b := decoded Contact ∅ in
  _create_from_dict Contact (VDict {[ "active" := VBool false ]}) ∅
  = Ret (COne a)
  ∧ _create_from_dict Contact (VDict ∅) ∅ = Ret (COne b)
  ∧ getattr a "active" = FVal (VBool false)
  ∧ getattr b "active" = FVal VNone
  ∧ py_eqb (VBool false) VNone = false
  ∧ model_eq a b = true
  ∧ model_ne a b = false.
Proof. by vm_compute. Qed.

(** ** Serialization of collections *)

(** C10: a declared field that holds an empty list, tuple or set is falsy
    and still appears in the mapping [to_dict] returns, as an empty list; a
    declared field that holds anything but a list, tuple or set appears
    exactly when its value is truthy. *)
Theorem C10_empty_collections_are_kept (m : model) (k : string) :
  k ∈ declared (class_of m) →
  (is_empty_collection (getattr m k) = true →
   field_truthy (getattr m k) = false ∧ to_dict m !! k = Some (VList []))
  ∧ (is_collection (getattr m k) = false →
     (is_Some (to_dict m !! k) ↔ field_truthy (getattr m k) = true)).
Proof.
  intros Hk. rewrite to_dict_lookup_declared by done.
  destruct (getattr m k) as [v | m0 | kind items].
  - split.
    + by destruct v as [| | | | [|] | [|] | [|] |].
    + intros Hc.
      assert (Hs : serialized (FVal v) = if truthy v then Some v else None)
        by (by destruct v).
      rewrite Hs. cbn [field_truthy].
      destruct (truthy v); split; intros Hx; done.
  - split; [done|]. intros _. split; [done | by eexists].
  - split; [|done]. by destruct items.
Qed.

Lemma C10_empty_collections_are_kept_witness :
  let m := init Contact {[ "name" := FVal (VTuple []) ]} in
  (is_empty_collection (getattr m "name") = true →
   field_truthy (getattr m "name") = false
   ∧ to_dict m !! "name" = Some (VList []))
  ∧ (is_collection (getattr m "name") = false →
     (is_Some (to_dict m !! "name") ↔ field_truthy (getattr m "name") = true)).
Proof.
  apply (C10_empty_collections_are_kept
           (init Contact {[ "name" := FVal (VTuple []) ]}) "name").
  by apply (bool_decide_unpack _); vm_compute.
Defined.

(** ** Round trip through the mapping form *)

Lemma serialized_val (v : value) :
  serialized (FVal v)
  = match v with
    | VList l | VTuple l | VSet l => Some (VList l)
    | _ => if truthy v then Some v else None
    end.
Proof. by destruct v. Qed.

(** What [to_dict] stores for a field is stored again when the field holds
    the stored value itself, except for the empty mapping of a nested
    entity. *)
Lemma serialized_again (x : field) (s : value) :
  serialized x = Some s →
  (∀ m0, x = FModel m0 → to_dict m0 ≠ ∅) →
  serialized (FVal s) = Some s.
Proof.
  intros Hs Hnested. destruct x as [v | m0 | kind items].
  - rewrite serialized_val in Hs.
    destruct v; cbv beta iota in Hs;
      try (by injection Hs as <-);
      (match type of Hs with
       | context [truthy ?v] => destruct (truthy v) eqn:Ht
       end; [|done]; injection Hs as <-;
       rewrite serialized_val; cbv beta iota; by rewrite Ht).
  - injection Hs as <-. rewrite serialized_val. cbn [truthy].
    rewrite bool_decide_eq_false_2; [done|]. by apply Hnested.
  - by injection Hs as <-.
Qed.

Lemma to_dict_dom_declared (m : model) (k : string) :
  is_Some (to_dict m !! k) → k ∈ declared (class_of m).
Proof.
  rewrite to_dict_lookup. destruct (decide _); [done|]. by intros [? ?].
Qed.

Lemma to_dict_decoded_to_dict (m : model) :
  (∀ k m0, k ∈ declared (class_of m) → getattr m k = FModel m0 →
           to_dict m0 ≠ ∅) →
  to_dict (decoded (class_of m) (to_dict m)) = to_dict m.
Proof.
  intros Hnested. apply map_eq. intros k.
  unfold decoded. rewrite to_dict_with_json.
  rewrite (to_dict_lookup (init _ _)), class_of_init.
  rewrite (to_dict_lookup m).
  destruct (decide (k ∈ declared (class_of m))) as [Hk|Hk]; [|done].
  rewrite getattr_init, decide_True, lookup_fmap by done.
  rewrite to_dict_lookup_declared by done.
  fold (serialized (getattr m k)).
  destruct (serialized (getattr m k)) as [s|] eqn:Hs; simpl; [|done].
  apply (serialized_again (getattr m k)); [done|].
  intros m0. by apply Hnested.
Qed.

(** C6, as the code has it: for every entity none of whose declared fields
    holds a nested entity with an empty mapping form, decoding the mapping
    form through the record factory returns an entity with the same mapping
    form, which compares equal to the original. *)
Theorem C6_round_trip (m : model) :
  (∀ k m0, k ∈ declared (class_of m) → getattr m k = FModel m0 →
           to_dict m0 ≠ ∅) →
  ∃ m',
    _create_from_dict (class_of m) (VDict (to_dict m)) ∅ = Ret (COne m')
    ∧ to_dict m' = to_dict m
    ∧ model_eq m m' = true
    ∧ model_eq m' m = true.
Proof.
  intros Hnested. exists (decoded (class_of m) (to_dict m)).
  pose proof (to_dict_decoded_to_dict m Hnested) as Heq.
  split; [|by auto using to_dict_eq_model_eq].
  apply create_from_object. intros Hself.
  apply elem_of_dom, to_dict_dom_declared in Hself.
  by apply (self_not_declared (class_of m)).
Qed.

Lemma C6_round_trip_witness :
  let m := init Contact {[ "name" := FVal (VStr "Acme") ]} in
  ∃ m',
    _create_from_dict (class_of m) (VDict (to_dict m)) ∅ = Ret (COne m')
    ∧ to_dict m' = to_dict m
    ∧ model_eq m m' = true
    ∧ model_eq m' m = true.
Proof.
  apply (C6_round_trip (init Contact {[ "name" := FVal (VStr "Acme") ]})).
  intros k m0 _. rewrite getattr_init.
  destruct (decide (k ∈ declared Contact)); [|done].
  destruct (decide (k = "name")) as [->|Hne].
  - by rewrite lookup_singleton_eq.
  - by rewrite lookup_singleton_ne.
Defined.

(** C6 as stated fails on a contact whose [name] holds a user with no field
    set: the mapping form is [{"name": {}}], the decoded entity holds the
    empty mapping under [name], which [to_dict] leaves out, and the two
    compare unequal. *)
Lemma C6_counterexample_empty_nested_entity :
  let e := init Contact {[ "name" := FModel (init User ∅) ]} in
  let e' := decoded Contact (to_dict e) in
  to_dict e = {[ "name" := VDict ∅ ]}
  ∧ _create_from_dict Contact (VDict (to_dict e)) ∅ = Ret (COne e')
  ∧ to_dict e' = ∅
  ∧ model_eq e e' = false
  ∧ model_eq e' e = false.
Proof. by vm_compute. Qed.

(** ** Strings *)

Lemma string_app_assoc (a b c : string) : (a ++ b) ++ c = a ++ (b ++ c).
Proof.
  induction a as [|x a IH]; [done|].
  change (String x ((a ++ b) ++ c) = String x (a ++ (b ++ c))).
  by rewrite IH.
Qed.

Lemma string_app_nil_r (a : string) : a ++ "" = a.
Proof.
  induction a as [|x a IH]; [done|].
  change (String x (a ++ "") = String x a). by rewrite IH.
Qed.

Lemma lower_app (a b : string) : lower (a ++ b) = lower a ++ lower b.
Proof.
  induction a as [|x a IH]; [done|].
  change (String (lower_ascii x) (lower (a ++ b))
          = String (lower_ascii x) (lower a ++ lower b)).
  by rewrite IH.
Qed.

(** ** Letter case *)

Lemma lower_ascii_lowered (c : ascii) : lowered_char (lower_ascii c) c = true.
Proof. destruct c as [[] [] [] [] [] [] [] []]; vm_compute; reflexivity. Qed.

Lemma lower_ascii_no_capital (c : ascii) : is_capital (lower_ascii c) = false.
Proof. destruct c as [[] [] [] [] [] [] [] []]; vm_compute; reflexivity. Qed.


Lemma lower_lowered_from (s : string) : lowered_from (lower s) s = true.
Proof.
  induction s as [|c s IH]; [done|].
  cbn [lower lowered_from]. by rewrite lower_ascii_lowered, IH.
Qed.

Lemma lower_no_capital (s : string) : no_capital (lower s) = true.
Proof.
  induction s as [|c s IH]; [done|].
  cbn [lower no_capital]. by rewrite lower_ascii_no_capital, IH.
Qed.



(** What is in lower case character by character is determined by the text
    it comes from. *)
Lemma lowered_from_unique (raw url1 url2 : string) :
  lowered_from url1 raw = true → lowered_from url2 raw = true → url1 = url2.
Proof.
  revert url1 url2.
  induction raw as [|c raw IH]; intros [|c1 url1] [|c2 url2]; try done.
  cbn [lowered_from]. rewrite !andb_true_iff.
  intros [Hc1 H1] [Hc2 H2]. f_equal; [|by apply IH].
  unfold lowered_char in Hc1, Hc2. destruct (is_capital c).
  - apply N.eqb_eq in Hc1, Hc2.
    rewrite <-(ascii_N_embedding c1), <-(ascii_N_embedding c2). congruence.
  - apply Ascii.eqb_eq in Hc1, Hc2. congruence.
Qed.

Lemma nonempty_true (s : string) : s ≠ "" → nonempty s = true.
Proof.
  intros Hs. unfold nonempty. apply negb_true_iff.
  by apply String.eqb_neq.
Qed.

Lemma nonempty_app_slash (p q : string) : nonempty (p ++ "/" ++ q) = true.
Proof. by destruct p. Qed.

(** ** The request dispatcher *)

Section Dispatcher.
Context `{Collaborators}.

Lemma make_request_run (self : MinuteDockCall) (method path : string)
    (payload : option (gmap string value)) (w : world) :
  _make_request self method path payload w
  = let r := request_made self method path payload w in
    let md_response := request (sent w) r in
    (if raises_for_status md_response
     then Raise (SystemExit (status_code md_response))
     else match json_body md_response with
          | Some v => Ret v
          | None => Raise JSONDecodeError
          end,
     {| heap := heap (after_header_write self payload w);
        sent := sent w ++ [r] |}).
Proof.
  unfold _make_request, request_made, after_header_write, bind, do_request,
    setitem, ret, throw.
  destruct payload as [p|]; simpl;
    destruct (raises_for_status _); [done | | done |];
    by destruct (json_body _).
Qed.

Lemma deref_after_header_write self payload w :
  deref (headers self) (after_header_write self (Some payload) w)
  = <["Content-Type" := "application/json"]> (deref (headers self) w).
Proof. unfold deref; simpl. by rewrite lookup_insert_eq. Qed.

Lemma request_then_handle_run self cls method path payload w :
  request_then_handle self cls method path payload w
  = let r := request_made self method path payload w in
    let md_response := request (sent w) r in
    (if raises_for_status md_response
     then Raise (SystemExit (status_code md_response))
     else match json_body md_response with
          | Some v => _create_from_dict cls v ∅
          | None => Raise JSONDecodeError
          end,
     {| heap := heap (after_header_write self payload w);
        sent := sent w ++ [r] |}).
Proof.
  unfold request_then_handle, bind. rewrite make_request_run. simpl.
  destruct (raises_for_status _); [done|].
  by destruct (json_body _).
Qed.

Lemma get_run self cls kw url w :
  api_url (get_path kw) (get_path_var kw) (get_params kw) = Ret url →
  _get self cls kw w = request_then_handle self cls "GET" url None w.
Proof. intros Hurl. unfold _get, bind, lift. by rewrite Hurl. Qed.

Lemma post_run self cls kw url w :
  api_url (get_path kw) (get_path_var kw) None = Ret url →
  _post self cls kw w
  = request_then_handle self cls "POST" url (get_payload kw) w.
Proof. intros Hurl. unfold _post, bind, lift. by rewrite Hurl. Qed.

Lemma put_run self cls kw url w :
  api_url (get_path kw) (get_id kw) None = Ret url →
  _put self cls kw w
  = request_then_handle self cls "PUT" url (get_payload kw) w.
Proof. intros Hurl. unfold _put, bind, lift. by rewrite Hurl. Qed.

Lemma request_then_handle_exits_or_hands_over
    self cls method path payload w :
  exits_or_hands_over (request_then_handle self cls method path payload)
    cls method path w.
Proof.
  unfold exits_or_hands_over. rewrite request_then_handle_run. simpl.
  by eexists.
Qed.

(** C4, as the code has it: when the response has a client-error or
    server-error status (400 to 599, the statuses [raise_for_status]
    raises on), the call ends in [SystemExit] carrying that status and
    returns nothing; on every other status the decoded json body goes to
    the record factory with the entity type of the caller, and the
    factory's result is the result of the call.  This holds of each of
    [_get], [_post] and [_put], whenever the URL can be built. *)
Theorem C4_error_status_exits (self : MinuteDockCall) (cls : ModelClass)
    (kw : kwargs) (w : world) :
  (∀ url, api_url (get_path kw) (get_path_var kw) (get_params kw) = Ret url →
          exits_or_hands_over (_get self cls kw) cls "GET" url w)
  ∧ (∀ url, api_url (get_path kw) (get_path_var kw) None = Ret url →
            exits_or_hands_over (_post self cls kw) cls "POST" url w)
  ∧ (∀ url, api_url (get_path kw) (get_id kw) None = Ret url →
            exits_or_hands_over (_put self cls kw) cls "PUT" url w).
Proof.
  split; [|split]; intros url Hurl; unfold exits_or_hands_over.
  - rewrite (get_run _ _ _ url) by done.
    apply request_then_handle_exits_or_hands_over.
  - rewrite (post_run _ _ _ url) by done.
    apply request_then_handle_exits_or_hands_over.
  - rewrite (put_run _ _ _ url) by done.
    apply request_then_handle_exits_or_hands_over.
Qed.

Lemma fresh_client_headers (api_key : string) (account_id : option string)
    (w : world) :
  ∃ self w0,
    MinuteDock_init api_key account_id w = (Ret self, w0)
    ∧ sent w0 = sent w
    ∧ deref (headers self) w0 !! "X-API-Key" = Some api_key
    ∧ deref (headers self) w0 !! "X-Account-ID" = account_id
    ∧ deref (headers self) w0 !! "Content-Type" = None.
Proof.
  eexists _, _. split; [reflexivity|]. split; [reflexivity|].
  unfold deref; simpl. rewrite lookup_insert_eq. simpl.
  destruct account_id as [id|].
  - by rewrite lookup_insert_ne, lookup_singleton_eq, lookup_insert_eq,
      lookup_insert_ne, lookup_singleton_ne.
  - by rewrite lookup_singleton_eq, !lookup_singleton_ne.
Qed.

(** C1 fails on the code.  The first call of a new client carries
    [Content-Type] only with a payload; but once a call with a payload has
    been made, a later call without a payload through the same client
    carries [Content-Type: application/json] and no body, because the
    header was written into the dictionary [self.headers] refers to. *)
Theorem C1_content_type_outlives_the_call (api_key : string)
    (account_id : option string) (method1 path1 method2 path2 : string)
    (payload : gmap string value) :
  ∃ self w0,
    MinuteDock_init api_key account_id new_world = (Ret self, w0)
    ∧ (∃ r, sent (_make_request self method2 path2 None w0).2 = [r]
            ∧ req_data r = None
            ∧ req_headers r !! "Content-Type" = None)
    ∧ let w1 := (_make_request self method1 path1 (Some payload) w0).2 in
      let w2 := (_make_request self method2 path2 None w1).2 in
      ∃ r1 r2,
        sent w2 = [r1; r2]
        ∧ req_data r1 = Some (remove_none_values payload)
        ∧ req_headers r1 !! "Content-Type" = Some "application/json"
        ∧ req_data r2 = None
        ∧ req_headers r2 !! "Content-Type" = Some "application/json".
Proof.
  destruct (fresh_client_headers api_key account_id new_world)
    as (self & w0 & Hinit & Hsent & _ & _ & Hct).
  exists self, w0. split; [done|]. split.
  - rewrite make_request_run. simpl. rewrite Hsent. by eexists.
  - intros w1 w2. unfold w2, w1. rewrite !make_request_run. simpl.
    rewrite Hsent. eexists _, _. split; [reflexivity|].
    split; [done|]. split.
    { unfold request_made, after_header_write, deref; simpl.
      rewrite lookup_insert_eq. simpl. apply lookup_insert_eq. }
    split; [done|].
    unfold request_made, after_header_write, deref; simpl.
    rewrite lookup_insert_eq. simpl. apply lookup_insert_eq.
Qed.

(** ** The facade *)

Lemma api_url_with_path path path_var params :
  ∃ url, api_url (Some path) path_var params = Ret url.
Proof. by eexists. Qed.

Lemma post_wire self cls kw path w :
  get_path kw = Some path →
  ∃ r, sent (_post self cls kw w).2 = (sent w ++ [r])%list
       ∧ req_method r = "POST"
       ∧ req_data r = remove_none_values <$> get_payload kw.
Proof.
  intros Hpath.
  destruct (api_url_with_path path (get_path_var kw) None) as [url Hurl].
  rewrite <-Hpath in Hurl.
  rewrite (post_run _ _ _ url), request_then_handle_run by done. simpl.
  by eexists.
Qed.

Lemma put_wire self cls kw path w :
  get_path kw = Some path →
  ∃ r, sent (_put self cls kw w).2 = (sent w ++ [r])%list
       ∧ req_method r = "PUT"
       ∧ req_data r = remove_none_values <$> get_payload kw.
Proof.
  intros Hpath.
  destruct (api_url_with_path path (get_id kw) None) as [url Hurl].
  rewrite <-Hpath in Hurl.
  rewrite (put_run _ _ _ url), request_then_handle_run by done. simpl.
  by eexists.
Qed.

Lemma post_params_not_sent self cls path params w :
  sends_no_body (_post self cls [path_ path; params_ params]) w.
Proof.
  destruct (post_wire self cls [path_ path; params_ params] path w)
    as (r & Hsent & _ & Hdata); [done|].
  by exists r.
Qed.

Lemma put_params_not_sent self cls id path params w :
  sends_no_body (_put self cls [path_var_ id; path_ path; params_ params]) w.
Proof.
  destruct (put_wire self cls [path_var_ id; path_ path; params_ params]
              path w) as (r & Hsent & _ & Hdata); [done|].
  by exists r.
Qed.

(** C2 fails on the code: the create and update operations for contacts,
    projects and tasks and the report generation pass their parameter set
    under the keyword [params], which [_post] and [_put] never read, so
    the request goes out with no body.  Only the time-entry operations
    pass it under [payload]: their request carries the json encoding of
    the parameter set without its [None] entries. *)
Theorem C2_params_are_not_sent (self : MinuteDockCall) (w : world) :
  (∀ id budget_type budget_frequency budget_target budget_progress
     default_rate_dollars pinned name short_code active,
     sends_no_body
       (create_contact self id budget_type budget_frequency budget_target
          budget_progress default_rate_dollars pinned name short_code
          active) w)
  ∧ (∀ id budget_type budget_frequency budget_target budget_progress
       default_rate_dollars pinned name short_code active,
       sends_no_body
         (update_contact self id budget_type budget_frequency budget_target
            budget_progress default_rate_dollars pinned name short_code
            active) w)
  ∧ (∀ id budget_type budget_frequency budget_target budget_progress
       default_rate_dollars pinned name contact_id short_code active hidden
       description,
       sends_no_body
         (create_project self id budget_type budget_frequency budget_target
            budget_progress default_rate_dollars pinned name contact_id
            short_code active hidden description) w
       ∧ sends_no_body
           (create_task self id budget_type budget_frequency budget_target
              budget_progress default_rate_dollars pinned name contact_id
              short_code active hidden description) w)
  ∧ (∀ id budget_type budget_frequency budget_target budget_progress
       default_rate_dollars pinned name contact_id short_code active hidden
       description,
       sends_no_body
         (update_project self id budget_type budget_frequency budget_target
            budget_progress default_rate_dollars pinned name contact_id
            short_code active hidden description) w
       ∧ sends_no_body
           (update_task self id budget_type budget_frequency budget_target
              budget_progress default_rate_dollars pinned name contact_id
              short_code active hidden description) w)
  ∧ (∀ users contacts projects tasks billable_only unbillable_only
       invoiced_only uninvoiced_only date_from date_to task_detail,
       sends_no_body
         (get_report self users contacts projects tasks billable_only
            unbillable_only invoiced_only uninvoiced_only date_from date_to
            task_detail) w)
  ∧ (∀ id account_id description duration contact_id project_id task_ids
       invoice_id logged_at,
       sends_body
         (create_time_entry self id account_id description duration
            contact_id project_id task_ids invoice_id logged_at) w
         (json_dumps
            (filter (λ kv, is_none kv.2 = false)
               (time_entry_payload id account_id description duration
                  contact_id project_id task_ids invoice_id logged_at)))).
Proof.
  split. { intros. apply post_params_not_sent. }
  split. { intros. apply put_params_not_sent. }
  split. { intros. split; apply post_params_not_sent. }
  split. { intros. split; apply put_params_not_sent. }
  split. { intros. apply post_params_not_sent. }
  intros. unfold create_time_entry.
  match goal with
  | |- sends_body (_post _ _ ?kw) _ _ =>
      destruct (post_wire self TimeEntry kw (API_PATH !!! "entries") w)
        as (r & Hsent & _ & Hdata); [reflexivity|]
  end.
  exists r. split; [apply Hsent | apply Hdata].
Qed.

(** C8: without a path the URL builder raises [ClientException]; it
    returns no URL and does not end the process.  A dispatcher called
    without a path passes the exception on to its caller, before any
    request is made. *)
Theorem C8_missing_path_raises (path_var : option path_variable)
    (params : option (gmap string value)) :
  api_url None path_var params
  = Raise (ClientException "path must not be None.")
  ∧ ∀ self cls kw w,
      get_path kw = None →
      _get self cls kw w
      = (Raise (ClientException "path must not be None."), w)
      ∧ _post self cls kw w
        = (Raise (ClientException "path must not be None."), w)
      ∧ _put self cls kw w
        = (Raise (ClientException "path must not be None."), w).
Proof.
  split; [done|]. intros self cls kw w Hpath.
  unfold _get, _post, _put, bind, lift. by rewrite Hpath.
Qed.

(** C9 fails on the code: [get_task] passes the id under the keyword
    [id], which [_get] never reads, so the id reaches neither the URL nor
    anything else: the request is the one for the tasks endpoint itself.
    [get_contact], which passes it under [path_var], requests the path
    with the id appended. *)
Theorem C9_get_task_drops_the_id (self : MinuteDockCall) (id : Z)
    (w : world) :
  get_task self id w = _get self Task [path_ "/api/v1/tasks"] w
  ∧ (∃ r, sent (get_task self id w).2 = (sent w ++ [r])%list
          ∧ req_method r = "GET"
          ∧ req_url r
            = lower (geturl (replace_path "/api/v1/tasks" BASE_URL)))
  ∧ (∃ r, sent (get_contact self id w).2 = (sent w ++ [r])%list
          ∧ req_method r = "GET"
          ∧ req_url r
            = lower (geturl (replace_path ("/api/v1/contacts" ++ "/"
                                           ++ pretty id) BASE_URL))).
Proof.
  assert (Htasks : API_PATH !!! "tasks" = "/api/v1/tasks") by (by vm_compute).
  assert (Hcontacts : API_PATH !!! "contacts" = "/api/v1/contacts")
    by (by vm_compute).
  unfold get_task, get_contact. rewrite Htasks, Hcontacts.
  split; [reflexivity|]. split.
  - erewrite get_run by reflexivity. rewrite request_then_handle_run.
    by eexists.
  - erewrite get_run by reflexivity. rewrite request_then_handle_run.
    by eexists.
Qed.

(** ** The URL builder *)

Lemma api_url_shape (path : string) (path_var : path_variable)
    (params : option (gmap string value)) :
  base_is_authority BASE_URL →
  api_url (Some path) (Some path_var) params
  = Ret (lower (url_scheme BASE_URL ++ "://" ++ url_netloc BASE_URL
                ++ rooted (path ++ "/" ++ str path_var)
                ++ query_suffix params)).
Proof.
  intros (Hscheme & Hnetloc & Hparams & Hquery & Hfragment).
  unfold api_url, geturl, urlunsplit, replace_path, replace_query.
  f_equal. f_equal.
  destruct params as [p|];
    cbn [url_scheme url_netloc url_path url_params url_query url_fragment];
    rewrite Hparams, Hfragment, ?Hquery,
      (nonempty_true _ Hscheme), (nonempty_true _ Hnetloc);
    change (nonempty "") with false; cbn [orb andb negb];
    rewrite nonempty_app_slash; cbn [andb];
    unfold rooted, query_suffix;
    destruct (starts_with "/" _); cbn [negb];
    try destruct (nonempty (urlencode p));
    rewrite ?string_app_assoc, ?string_app_nil_r; reflexivity.
Qed.


End Dispatcher.


(** C4 as stated fails on a status that is neither a success nor an error
    for [raise_for_status]: a response with status 304 is not 2xx, and
    [get_current_user] returns the entity decoded from its body. *)
Lemma C4_counterexample_status_304 :
  let C := answering 304 (VDict {[ "id" := VInt 7 ]}) in
  let run := (let* md := MinuteDock_init "KEY" None in
              @get_current_user C md) new_world in
  is_2xx 304 = false
  ∧ (∀ served r, status_code (@request C served r) = 304)
  ∧ (req_method <$> sent run.2) = ["GET"]
  ∧ run.1 = Ret (COne (decoded User {[ "id" := VInt 7 ]})).
Proof. by vm_compute. Qed.

(** ** The failing runs, step by step *)

(** A time entry is created, then the current user is fetched: the second
    request has no body and still says [Content-Type: application/json]. *)
Example run_create_time_entry_then_get_current_user :
  let C := answering 200 (VDict ∅) in
  let run := (let* md := MinuteDock_init "KEY" None in
              let* _ := @create_time_entry C md VNone VNone (VStr "x") VNone
                          VNone VNone VNone VNone VNone in
              @get_current_user C md) new_world in
  on_the_wire <$> sent run.2
  = [ ("POST", "https://minutedock.com/api/v1/entries",
       Some "application/json", Some "{description}");
      ("GET", "https://minutedock.com/api/v1/users/me",
       Some "application/json", None) ].
Proof. by vm_compute. Qed.

(** A contact is created with a name: the request has no body at all. *)
Example run_create_contact :
  let C := answering 200 (VDict ∅) in
  let run := (let* md := MinuteDock_init "KEY" None in
              @create_contact C md VNone VNone VNone VNone VNone VNone VNone
                (VStr "Acme") VNone VNone) new_world in
  on_the_wire <$> sent run.2
  = [ ("POST", "https://minutedock.com/api/v1/contacts", None, None) ].
Proof. by vm_compute. Qed.

(** Task 7 is fetched, then contact 7: only the second URL names the id. *)
Example run_get_task_then_get_contact :
  let C := answering 200 (VDict ∅) in
  let run := (let* md := MinuteDock_init "KEY" None in
              let* _ := @get_task C md 7 in
              @get_contact C md 7) new_world in
  on_the_wire <$> sent run.2
  = [ ("GET", "https://minutedock.com/api/v1/tasks", None, None);
      ("GET", "https://minutedock.com/api/v1/contacts/7", None, None) ].
Proof. by vm_compute. Qed.

(** * Further properties of the record layer *)

(** ** Equality of data is an equivalence *)

Lemma list_eqb_sym {A} (f : A → A → bool) (l1 l2 : list A) :
  Forall (λ x, ∀ y, f x y = true → f y x = true) l1 →
  list_eqb f l1 l2 = true → list_eqb f l2 l1 = true.
Proof.
  intros Hall. revert l2.
  induction Hall as [|x l1 Hx _ IH]; intros [|y l2]; simpl; try done.
  rewrite !andb_true_iff. intros [Hxy Hl]. split; [by apply Hx | by apply IH].
Qed.

Lemma list_eqb_trans {A} (f : A → A → bool) (l1 l2 l3 : list A) :
  Forall (λ x, ∀ y z, f x y = true → f y z = true → f x z = true) l1 →
  list_eqb f l1 l2 = true → list_eqb f l2 l3 = true →
  list_eqb f l1 l3 = true.
Proof.
  intros Hall. revert l2 l3.
  induction Hall as [|x l1 Hx _ IH]; intros [|y l2] [|z l3]; simpl; try done.
  rewrite !andb_true_iff. intros [Hxy H12] [Hyz H23].
  split; [by apply (Hx y) | by apply (IH l2)].
Qed.

(** Every member of [l1] has an equal in [l2]. *)
Lemma covered_spec {A} (f : A → A → bool) (l1 l2 : list A) :
  forallb (λ x, existsb (λ y, f x y) l2) l1 = true
  ↔ ∀ x, x ∈ l1 → ∃ y, y ∈ l2 ∧ f x y = true.
Proof.
  rewrite forallb_forall. split.
  - intros Hall x Hx. apply list_elem_of_In, Hall, existsb_exists in Hx
      as (y & Hy & Hxy).
    exists y. by rewrite list_elem_of_In.
  - intros Hall x Hx. apply list_elem_of_In, Hall in Hx as (y & Hy & Hxy).
    apply existsb_exists. exists y. by rewrite <-list_elem_of_In.
Qed.

(** Every member of [l2] is the equal of a member of [l1]. *)
Lemma covering_spec {A} (f : A → A → bool) (l1 l2 : list A) :
  forallb (λ y, existsb (λ x, f x y) l1) l2 = true
  ↔ ∀ y, y ∈ l2 → ∃ x, x ∈ l1 ∧ f x y = true.
Proof.
  rewrite forallb_forall. split.
  - intros Hall y Hy. apply list_elem_of_In, Hall, existsb_exists in Hy
      as (x & Hx & Hxy).
    exists x. by rewrite list_elem_of_In.
  - intros Hall y Hy. apply list_elem_of_In, Hall in Hy as (x & Hx & Hxy).
    apply existsb_exists. exists x. by rewrite <-list_elem_of_In.
Qed.

Lemma as_int_eqb_sym (a b : value) (x : Z) :
  as_int a = Some x →
  bool_decide (Some x = as_int b) = true →
  ∃ y, as_int b = Some y ∧ bool_decide (Some y = as_int a) = true.
Proof.
  intros Ha Hb. apply bool_decide_eq_true in Hb.
  exists x. split; [done|]. apply bool_decide_eq_true. by rewrite Ha.
Qed.

Lemma py_eqb_sym (a b : value) : py_eqb a b = true → py_eqb b a = true.
Proof.
  revert b.
  induction a as [| x | x | x | l1 IH | l1 IH | l1 IH | d1 IH]
    using value_nested_ind; intros [| y | y | y | l2 | l2 | l2 | d2];
    simpl; try done.
  - intros Hb%bool_decide_eq_true. apply bool_decide_eq_true. congruence.
  - intros Hb%bool_decide_eq_true. apply bool_decide_eq_true. congruence.
  - intros Hb%bool_decide_eq_true. apply bool_decide_eq_true. congruence.
  - intros Hb%bool_decide_eq_true. apply bool_decide_eq_true. congruence.
  - intros Hxy%String.eqb_eq. by apply String.eqb_eq.
  - by apply list_eqb_sym.
  - by apply list_eqb_sym.
  - rewrite !andb_true_iff.
    rewrite (covered_spec py_eqb l1 l2), (covering_spec py_eqb l1 l2),
      (covered_spec py_eqb l2 l1), (covering_spec py_eqb l2 l1).
    rewrite Forall_forall in IH.
    intros [H12 H21]. split.
    + intros y Hy. destruct (H21 y Hy) as (x & Hx & Hxy).
      exists x. split; [done|]. by apply IH.
    + intros x Hx. destruct (H12 x Hx) as (y & Hy & Hxy).
      exists y. split; [done|]. by apply IH.
  - rewrite !dict_eqb_spec. intros Hagree k. specialize (Hagree k).
    unfold agree in *.
    destruct (d1 !! k) as [u|] eqn:Hu, (d2 !! k) as [v|]; try done.
    by apply (IH k u).
Qed.

Lemma py_eqb_trans (a b c : value) :
  py_eqb a b = true → py_eqb b c = true → py_eqb a c = true.
Proof.
  revert b c.
  induction a as [| x | x | x | l1 IH | l1 IH | l1 IH | d1 IH]
    using value_nested_ind;
    intros [| y | y | y | l2 | l2 | l2 | d2] [| z | z | z | l3 | l3 | l3 | d3];
    simpl; try done;
    try (intros H1%bool_decide_eq_true H2%bool_decide_eq_true;
         apply bool_decide_eq_true; congruence).
  - intros H1%String.eqb_eq H2%String.eqb_eq. apply String.eqb_eq. congruence.
  - by apply list_eqb_trans.
  - by apply list_eqb_trans.
  - rewrite !andb_true_iff.
    rewrite (covered_spec py_eqb l1 l2), (covering_spec py_eqb l1 l2),
      (covered_spec py_eqb l2 l3), (covering_spec py_eqb l2 l3),
      (covered_spec py_eqb l1 l3), (covering_spec py_eqb l1 l3).
    rewrite Forall_forall in IH.
    intros [H12 H21] [H23 H32]. split.
    + intros x Hx. destruct (H12 x Hx) as (y & Hy & Hxy).
      destruct (H23 y Hy) as (z & Hz & Hyz).
      exists z. split; [done|]. by apply (IH x Hx y).
    + intros z Hz. destruct (H32 z Hz) as (y & Hy & Hyz).
      destruct (H21 y Hy) as (x & Hx & Hxy).
      exists x. split; [done|]. by apply (IH x Hx y).
  - rewrite !dict_eqb_spec. intros H12 H23 k.
    specialize (H12 k). specialize (H23 k). unfold agree in *.
    destruct (d1 !! k) as [u|] eqn:Hu, (d2 !! k) as [v|], (d3 !! k) as [t|];
      try done.
    by apply (IH k u Hu v).
Qed.

Lemma agree_sym (x y : option value) : agree py_eqb x y → agree py_eqb y x.
Proof. destruct x, y; simpl; try done. apply py_eqb_sym. Qed.

Lemma agree_trans (x y z : option value) :
  agree py_eqb x y → agree py_eqb y z → agree py_eqb x z.
Proof. destruct x, y, z; simpl; try done. apply py_eqb_trans. Qed.

(** X1: [BaseModel.__eq__] is an equivalence on entities: every entity
    equals itself, equality does not depend on which side is asked, and it
    is transitive; [__ne__] answers the opposite of [__eq__]. *)
Theorem model_eq_equivalence :
  (∀ a, model_eq a a = true)
  ∧ (∀ a b, model_eq a b = model_eq b a)
  ∧ (∀ a b c, model_eq a b = true → model_eq b c = true →
              model_eq a c = true)
  ∧ (∀ a b, model_ne a b = negb (model_eq b a)).
Proof.
  assert (Hsym : ∀ a b, model_eq a b = true → model_eq b a = true).
  { intros a b. rewrite !model_eq_spec. intros Hab k. by apply agree_sym. }
  assert (Hsym' : ∀ a b, model_eq a b = model_eq b a).
  { intros a b. apply eq_true_iff_eq. split; apply Hsym. }
  split; [intros a; by apply to_dict_eq_model_eq|].
  split; [done|]. split.
  - intros a b c. rewrite !model_eq_spec. intros Hab Hbc k.
    by apply (agree_trans _ (to_dict b !! k)).
  - intros a b. unfold model_ne. by rewrite Hsym'.
Qed.

(** ** The constructor *)




(** ** The record factory on arrays and with overrides *)

Lemma construct_from_unpackable (c : ModelClass) (v : value) :
  construct_from c v
  = if unpackable v then Ret (init c (FVal <$> mapping_of v))
    else Raise TypeError.
Proof.
  destruct v; try done. simpl. unfold construct.
  rewrite dom_fmap_L. destruct (decide ("self" ∈ dom d)) as [Hin|Hnin].
  - by rewrite bool_decide_eq_false_2 by (by intros ?).
  - by rewrite bool_decide_eq_true_2.
Qed.

Lemma construct_each_run (c : ModelClass) (_data : value) (l : list value) :
  construct_each c _data l
  = if forallb unpackable l
    then Ret ((λ v, with_json _data (init c (FVal <$> mapping_of v))) <$> l)
    else Raise TypeError.
Proof.
  induction l as [|v l IH]; [done|].
  cbn [construct_each forallb fmap list_fmap].
  rewrite construct_from_unpackable.
  destruct (unpackable v); [|done]. rewrite IH.
  by destruct (forallb unpackable l).
Qed.

(** X3: a json array is decoded all or nothing.  When every element is an
    object without a key named [self], the factory returns one entity per
    element, in the order of the array, each built from its element and each
    holding the whole array as [_json]; otherwise it raises [TypeError] and
    returns no entity. *)
Theorem create_from_array (c : ModelClass) (l : list value) :
  _create_from_dict c (VList l) ∅
  = if forallb unpackable l
    then Ret (CMany ((λ v, with_json (VList l)
                             (init c (FVal <$> mapping_of v))) <$> l))
    else Raise TypeError.
Proof.
  unfold _create_from_dict.
  rewrite bool_decide_eq_false_2
    by (rewrite !lookup_empty; by intros [[? ?]|[? ?]]).
  rewrite bool_decide_eq_true_2 by done.
  rewrite construct_each_run. by destruct (forallb unpackable l).
Qed.

(** A keyword argument named [cls] or [_data] clashes with a parameter of
    [_create_from_dict]: the call raises [TypeError] whatever the data. *)
Lemma create_rejects_parameter_names (c : ModelClass) (_data : value)
    (kwargs : gmap string value) :
  "cls" ∈ dom kwargs ∨ "_data" ∈ dom kwargs →
  _create_from_dict c _data kwargs = Raise TypeError.
Proof.
  intros Hclash. unfold _create_from_dict.
  rewrite bool_decide_eq_true_2; [done|].
  by rewrite <-!elem_of_dom.
Qed.

(** X4: with no keyword argument named [self], [cls] or [_data] and no key
    [self] in the json object, the keyword arguments of [_create_from_dict]
    override the entries of the object: a declared field stores the keyword
    argument of its name, else the entry of the object, else [None]; the
    entity keeps the object as it was received as [_json]. *)
Theorem create_with_overrides (c : ModelClass) (d kwargs : gmap string value) :
  "self" ∉ dom d → "self" ∉ dom kwargs →
  "cls" ∉ dom kwargs → "_data" ∉ dom kwargs →
  ∃ obj attrs,
    _create_from_dict c (VDict d) kwargs = Ret (COne obj)
    ∧ obj = Model c attrs (Some (VDict d))
    ∧ ∀ k, k ∈ declared c →
        attrs !! k
        = Some match kwargs !! k, d !! k with
               | Some v, _ => FVal v
               | None, Some v => FVal v
               | None, None => FVal VNone
               end.
Proof.
  intros Hd Hkw Hcls Hdata. unfold _create_from_dict, construct.
  rewrite bool_decide_eq_false_2
    by (rewrite <-!elem_of_dom; tauto).
  rewrite decide_False
    by (rewrite dom_fmap_L, dom_union_L, elem_of_union; tauto).
  exists (with_json (VDict d) (init c (FVal <$> kwargs ∪ d))).
  exists (attributes (init c (FVal <$> kwargs ∪ d))).
  split; [reflexivity|]. split.
  - pose proof (class_of_init c (FVal <$> kwargs ∪ d)) as Hc.
    destruct (init c (FVal <$> kwargs ∪ d)); simpl in *. by subst.
  - intros k Hk.
    rewrite init_lookup, decide_True by done.
    rewrite lookup_fmap, lookup_union.
    by destruct (kwargs !! k), (d !! k).
Qed.

Lemma create_with_overrides_witness :
  ∃ obj attrs,
    _create_from_dict Contact (VDict {[ "name" := VStr "Acme" ]})
      {[ "name" := VStr "Zenith"; "active" := VBool true ]}
    = Ret (COne obj)
    ∧ obj = Model Contact attrs (Some (VDict {[ "name" := VStr "Acme" ]}))
    ∧ ∀ k, k ∈ declared Contact →
        attrs !! k
        = Some match ({[ "name" := VStr "Zenith"; "active" := VBool true ]}
                        : gmap string value) !! k,
                     ({[ "name" := VStr "Acme" ]} : gmap string value) !! k
               with
               | Some v, _ => FVal v
               | None, Some v => FVal v
               | None, None => FVal VNone
               end.
Proof.
  apply (create_with_overrides Contact {[ "name" := VStr "Acme" ]}
           {[ "name" := VStr "Zenith"; "active" := VBool true ]});
    by apply (bool_decide_unpack _); vm_compute.
Defined.

(** ** What the mapping form holds *)

(** X5: the mapping [to_dict] returns has declared fields as its only keys
    and never holds [None]: each value is truthy, or is the list made of a
    list, tuple or set, or is the mapping of a nested entity. *)
Theorem to_dict_entries (m : model) (k : string) (v : value) :
  to_dict m !! k = Some v →
  k ∈ declared (class_of m)
  ∧ v ≠ VNone
  ∧ (is_collection (getattr m k) = true ∧ (∃ l, v = VList l)
     ∨ (∃ m0, getattr m k = FModel m0 ∧ v = VDict (to_dict m0))
     ∨ (getattr m k = FVal v ∧ truthy v = true)).
Proof.
  intros Hv.
  assert (Hk : k ∈ declared (class_of m))
    by (apply to_dict_dom_declared; by eexists).
  rewrite to_dict_lookup_declared in Hv by done.
  split; [done|].
  destruct (getattr m k) as [x | m0 | kind items].
  - rewrite serialized_val in Hv.
    destruct x; cbv beta iota in Hv;
      try (injection Hv as <-; split; [done|]; left; split; [done|];
           by eexists);
      (match type of Hv with
       | context [truthy ?x] => destruct (truthy x) eqn:Ht
       end; [|done]; injection Hv as <-;
       split; [intros Heq; first [discriminate Heq | by vm_compute in Ht]
              | by right; right]).
  - injection Hv as <-. split; [done|]. right; left. by eexists.
  - injection Hv as <-. split; [done|]. left. split; [done | by eexists].
Qed.

Lemma to_dict_entries_witness :
  let m := init Contact {[ "name" := FVal (VStr "Acme") ]} in
  "name" ∈ declared (class_of m)
  ∧ VStr "Acme" ≠ VNone
  ∧ (is_collection (getattr m "name") = true ∧ (∃ l, VStr "Acme" = VList l)
     ∨ (∃ m0, getattr m "name" = FModel m0
              ∧ VStr "Acme" = VDict (to_dict m0))
     ∨ (getattr m "name" = FVal (VStr "Acme")
        ∧ truthy (VStr "Acme") = true)).
Proof.
  apply (to_dict_entries (init Contact {[ "name" := FVal (VStr "Acme") ]})
           "name" (VStr "Acme")).
  by vm_compute.
Defined.

(** ** Equality across entity types *)

(** X6: equality looks at neither the entity type nor the [_json]
    document: two instances of any two classes, built from the same keyword
    arguments, all of them declared by both classes, compare equal, whatever
    documents they hold as [_json]. *)
Theorem equality_ignores_the_type (c1 c2 : ModelClass)
    (kwargs : gmap string field) (j1 j2 : value) :
  (∀ k, is_Some (kwargs !! k) → k ∈ declared c1 ∧ k ∈ declared c2) →
  model_eq (with_json j1 (init c1 kwargs)) (with_json j2 (init c2 kwargs))
  = true.
Proof.
  intros Hboth. apply to_dict_eq_model_eq.
  rewrite !to_dict_with_json. apply map_eq. intros k.
  rewrite !to_dict_init_lookup.
  destruct (kwargs !! k) as [x|] eqn:Hx.
  - destruct (Hboth k) as [H1 H2]; [by eexists|].
    by rewrite !decide_True.
  - cbn [default from_option]. rewrite serialized_None.
    by repeat destruct (decide _).
Qed.

Lemma equality_ignores_the_type_witness :
  model_eq (with_json (VDict {[ "id" := VInt 1 ]})
              (init User {[ "id" := FVal (VInt 1) ]}))
           (with_json VNone (init Account {[ "id" := FVal (VInt 1) ]}))
  = true.
Proof.
  apply (equality_ignores_the_type User Account {[ "id" := FVal (VInt 1) ]}).
  intros k [x Hx]. destruct (decide (k = "id")) as [->|Hne].
  - split; by apply (bool_decide_unpack _); vm_compute.
  - by rewrite lookup_singleton_ne in Hx.
Defined.

(** ** The loop that strips [None] values *)

Lemma remove_none_foldl_lookup (l : list (string * value))
    (acc : gmap string value) (k : string) :
  foldl (λ _data '(key, value),
           if is_none value then delete key _data else _data) acc l !! k
  = if existsb (λ '(key, value), bool_decide (key = k) && is_none value) l
    then None else acc !! k.
Proof.
  revert acc. induction l as [|[key value] l IH]; intros acc; [done|].
  cbn [foldl existsb]. rewrite IH.
  destruct (existsb _ l); [by rewrite orb_true_r|]. rewrite orb_false_r.
  destruct (is_none value); cbn [andb]; [|by rewrite andb_false_r].
  rewrite andb_true_r. case_bool_decide as Hk.
  - subst. apply lookup_delete_eq.
  - by apply lookup_delete_ne.
Qed.

Lemma is_none_spec (v : value) : is_none v = true ↔ v = VNone.
Proof. by destruct v. Qed.

Lemma remove_none_loop_lookup (data : gmap string value) (k : string) :
  remove_none_loop data !! k
  = match data !! k with
    | Some v => if is_none v then None else Some v
    | None => None
    end.
Proof.
  unfold remove_none_loop. rewrite remove_none_foldl_lookup.
  destruct (existsb _ _) eqn:Hex.
  - apply existsb_exists in Hex as ([key value] & Hin & Hkv).
    apply andb_true_iff in Hkv as [Hkey%bool_decide_eq_true Hnone]. subst.
    apply list_elem_of_In, elem_of_map_to_list in Hin.
    by rewrite Hin, Hnone.
  - destruct (data !! k) as [v|] eqn:Hk; [|done].
    destruct (is_none v) eqn:Hnone; [|done].
    assert (Hin : In (k, v) (map_to_list data))
      by (by apply list_elem_of_In, elem_of_map_to_list).
    assert (Hex' : existsb (λ '(key, value),
                     bool_decide (key = k) && is_none value)
                     (map_to_list data) = true).
    { apply existsb_exists. exists (k, v). split; [done|].
      by rewrite bool_decide_eq_true_2, Hnone. }
    congruence.
Qed.

Lemma remove_none_loop_filter (data : gmap string value) :
  remove_none_loop data = filter (λ kv, is_none kv.2 = false) data.
Proof.
  apply map_eq. intros k. rewrite remove_none_loop_lookup.
  destruct (data !! k) as [v|] eqn:Hk.
  - destruct (is_none v) eqn:Hnone; symmetry.
    + apply map_lookup_filter_None. right. intros x Hx. simpl. congruence.
    + by apply map_lookup_filter_Some.
  - symmetry. apply map_lookup_filter_None. by left.
Qed.

(** * Further properties of the call layer *)

Section CallLayerFurther.
Context `{Collaborators}.

(** X7: the body encoder runs the loop of [__remove_none_values] and
    encodes its result: the entries of the payload whose value is not
    [None], each with its value unchanged.  Other falsy values ([False], 0,
    the empty string, empty collections) stay, a [None] inside a value
    stays, and running the loop a second time removes nothing more. *)
Theorem remove_none_values_strips_only_None (data : gmap string value) :
  remove_none_values data = json_dumps (remove_none_loop data)
  ∧ (∀ k v, remove_none_loop data !! k = Some v
            ↔ data !! k = Some v ∧ v ≠ VNone)
  ∧ remove_none_loop (remove_none_loop data) = remove_none_loop data.
Proof.
  split; [|split].
  - unfold remove_none_values. by rewrite remove_none_loop_filter.
  - intros k v. rewrite remove_none_loop_lookup.
    destruct (data !! k) as [x|]; [|by split; [|intros [? _]]].
    destruct (is_none x) eqn:Hnone.
    + apply is_none_spec in Hnone. subst x.
      split; [done|]. by intros [[= <-] Hv].
    + split.
      * intros [= <-]. split; [done|]. by intros ->.
      * by intros [[= <-] _].
  - apply map_eq. intros k. rewrite !remove_none_loop_lookup.
    destruct (data !! k) as [x|]; [|done].
    destruct (is_none x) eqn:Hnone; [done|]. by rewrite Hnone.
Qed.

(** ** Credentials on every request *)

Lemma credentials_after_init (key : string) (account : option string)
    (w : world) :
  ∃ self w0,
    MinuteDock_init key account w = (Ret self, w0)
    ∧ api_key self = key
    ∧ account_id self = account
    ∧ (headers self ∉ dom (heap w))
    ∧ credentials_in_place self w0.
Proof.
  eexists _, _. split; [reflexivity|]. split; [done|]. split; [done|].
  split; [apply is_fresh|].
  eexists. split; [apply lookup_insert_eq|]. simpl.
  destruct account as [id|].
  - by rewrite lookup_insert_ne, lookup_singleton_eq, lookup_insert_eq.
  - by rewrite lookup_singleton_eq, lookup_singleton_ne.
Qed.

Lemma make_request_world self method path payload w :
  (_make_request self method path payload w).2
  = {| heap := heap (after_header_write self payload w);
       sent := sent w ++ [request_made self method path payload w] |}.
Proof. by rewrite make_request_run. Qed.

Lemma dispatcher_world (call : M created) (w : world) :
  (∃ self cls kw, call = _get self cls kw ∨ call = _post self cls kw
                  ∨ call = _put self cls kw) →
  (call w).2 = w
  ∨ ∃ self method path payload,
      (call w).2 = (_make_request self method path payload w).2.
Proof.
  intros (self & cls & kw & [-> | [-> | ->]]).
  - destruct (api_url (get_path kw) (get_path_var kw) (get_params kw))
      as [url|e] eqn:Hurl.
    + right. exists self, "GET", url, None.
      by rewrite (get_run _ _ _ url), request_then_handle_run,
        make_request_run.
    + left. unfold _get, bind, lift. by rewrite Hurl.
  - destruct (api_url (get_path kw) (get_path_var kw) None)
      as [url|e] eqn:Hurl.
    + right. exists self, "POST", url, (get_payload kw).
      by rewrite (post_run _ _ _ url), request_then_handle_run,
        make_request_run.
    + left. unfold _post, bind, lift. by rewrite Hurl.
  - destruct (api_url (get_path kw) (get_id kw) None) as [url|e] eqn:Hurl.
    + right. exists self, "PUT", url, (get_payload kw).
      by rewrite (put_run _ _ _ url), request_then_handle_run,
        make_request_run.
    + left. unfold _put, bind, lift. by rewrite Hurl.
Qed.

Lemma credentials_kept_by_make_request self other method path payload w :
  credentials_in_place self w →
  credentials_in_place self (_make_request other method path payload w).2.
Proof.
  intros (d & Hd & Hkey & Hacc). rewrite make_request_world.
  unfold credentials_in_place, after_header_write.
  destruct payload as [p|]; cbn [heap]; [|by exists d].
  destruct (decide (headers other = headers self)) as [Heq|Hne].
  - rewrite Heq. eexists. split; [apply lookup_insert_eq|].
    unfold deref. rewrite Hd. cbn [default from_option id].
    by rewrite !lookup_insert_ne.
  - exists d. by rewrite lookup_insert_ne.
Qed.

Lemma credentials_kept_by_init self key account w :
  credentials_in_place self w →
  credentials_in_place self (MinuteDock_init key account w).2.
Proof.
  intros (d & Hd & Hkey & Hacc). exists d. split; [|done]. simpl.
  rewrite lookup_insert_ne; [done|]. intros Heq.
  apply (is_fresh (dom (heap w))). rewrite Heq. apply elem_of_dom. by eexists.
Qed.

Lemma credentials_kept_by_step self w w' :
  step w w' → credentials_in_place self w → credentials_in_place self w'.
Proof.
  intros Hstep Hin.
  assert (Hcall : ∀ call : M created,
            (∃ self cls kw, call = _get self cls kw ∨ call = _post self cls kw
                            ∨ call = _put self cls kw) →
            credentials_in_place self (call w).2).
  { intros call Hcall.
    destruct (dispatcher_world call w Hcall)
      as [-> | (other & method & path & payload & ->)]; [done|].
    by apply credentials_kept_by_make_request. }
  destruct Hstep.
  - by apply credentials_kept_by_init.
  - by apply credentials_kept_by_make_request.
  - apply Hcall. eexists _, _, _. by left.
  - apply Hcall. eexists _, _, _. by right; left.
  - apply Hcall. eexists _, _, _. by right; right.
Qed.

(** X8: every request a client makes carries the credentials it was built
    with, [X-API-Key] with its key and [X-Account-ID] exactly when it has
    an account id, whatever was done before through this or any other
    client: clients built, requests made, with or without payload, ended in
    an exception or not. *)
Theorem credentials_on_every_request (key : string) (account : option string)
    (w0 w w' : world) (self : MinuteDockCall) (method path : string)
    (payload : option (gmap string value)) :
  MinuteDock_init key account w0 = (Ret self, w) →
  rtc step w w' →
  let r := request_made self method path payload w' in
  req_headers r !! "X-API-Key" = Some key
  ∧ req_headers r !! "X-Account-ID" = account.
Proof.
  intros Hinit Hsteps.
  destruct (credentials_after_init key account w0)
    as (self' & w1 & Hinit' & Hkey & Hacc & _ & Hin).
  rewrite Hinit in Hinit'. injection Hinit' as <- <-.
  assert (Hin' : credentials_in_place self w').
  { clear Hinit. induction Hsteps as [|w1 w2 w3 Hstep _ IH]; [done|].
    apply IH. by apply (credentials_kept_by_step self w1). }
  destruct Hin' as (d & Hd & Hdkey & Hdacc).
  unfold request_made, after_header_write, deref. cbn [req_headers].
  destruct payload as [p|]; cbn [heap].
  - rewrite lookup_insert_eq, Hd. cbn [default from_option id].
    rewrite !lookup_insert_ne by done. by rewrite Hdkey, Hdacc, Hkey, Hacc.
  - rewrite Hd. cbn [default from_option id].
    by rewrite Hdkey, Hdacc, Hkey, Hacc.
Qed.

(** X9: two clients never share a header dictionary: a request made
    through one leaves the headers of the other as they were, so a call with
    a payload through the first client puts no [Content-Type] on the
    requests of the second. *)
Theorem clients_do_not_share_headers (key1 key2 : string)
    (account1 account2 : option string) (w0 : world) :
  ∃ self1 w1 self2 w2,
    MinuteDock_init key1 account1 w0 = (Ret self1, w1)
    ∧ MinuteDock_init key2 account2 w1 = (Ret self2, w2)
    ∧ headers self1 ≠ headers self2
    ∧ (∀ w method path payload,
         deref (headers self2) (_make_request self1 method path payload w).2
         = deref (headers self2) w
         ∧ deref (headers self1) (_make_request self2 method path payload w).2
           = deref (headers self1) w)
    ∧ (∀ method1 path1 payload method2 path2,
         let w3 := (_make_request self1 method1 path1 (Some payload) w2).2 in
         req_headers (request_made self2 method2 path2 None w3)
           !! "Content-Type" = None).
Proof.
  destruct (credentials_after_init key1 account1 w0)
    as (self1 & w1 & Hinit1 & _ & _ & _ & (d1 & Hd1 & _)).
  destruct (credentials_after_init key2 account2 w1)
    as (self2 & w2 & Hinit2 & _ & _ & Hfresh & _).
  destruct (fresh_client_headers key2 account2 w1)
    as (self2' & w2' & Hinit2' & _ & _ & _ & Hct).
  rewrite Hinit2 in Hinit2'. injection Hinit2' as <- <-.
  assert (Hne : headers self1 ≠ headers self2).
  { intros Heq. apply Hfresh. rewrite <-Heq. apply elem_of_dom. by eexists. }
  assert (Hframe : ∀ a b w method path payload,
            headers a ≠ headers b →
            deref (headers b) (_make_request a method path payload w).2
            = deref (headers b) w).
  { intros a b w method path payload Hab. rewrite make_request_world.
    unfold deref, after_header_write.
    destruct payload; cbn [heap]; [|done]. by rewrite lookup_insert_ne. }
  exists self1, w1, self2, w2. split; [done|]. split; [done|].
  split; [done|]. split.
  - intros w method path payload. split; by apply Hframe.
  - intros method1 path1 payload method2 path2 w3. unfold w3.
    unfold request_made. cbn [req_headers after_header_write].
    by rewrite Hframe.
Qed.

(** ** URLs are lower case *)



(** ** URLs without a path variable *)

Lemma nonempty_false (s : string) : nonempty s = false → s = "".
Proof. by destruct s. Qed.

Lemma api_url_shape_no_variable (path : string)
    (params : option (gmap string value)) :
  base_is_authority BASE_URL →
  api_url (Some path) None params
  = Ret (lower (url_scheme BASE_URL ++ "://" ++ url_netloc BASE_URL
                ++ (if nonempty path then rooted path else "")
                ++ query_suffix params)).
Proof.
  intros (Hscheme & Hnetloc & Hparams & Hquery & Hfragment).
  unfold api_url, geturl, urlunsplit, replace_path, replace_query.
  f_equal. f_equal.
  destruct (nonempty path) eqn:Hpath;
    [|apply nonempty_false in Hpath; subst path];
    destruct params as [p|];
    cbn [url_scheme url_netloc url_path url_params url_query url_fragment];
    rewrite Hparams, Hfragment, ?Hquery, ?Hpath,
      (nonempty_true _ Hscheme), (nonempty_true _ Hnetloc);
    change (nonempty "") with false; cbn [orb andb negb];
    rewrite ?Hpath; cbn [andb];
    unfold rooted, query_suffix;
    try destruct (starts_with "/" path); cbn [negb];
    try destruct (nonempty (urlencode p));
    rewrite ?string_app_assoc, ?string_app_nil_r; reflexivity.
Qed.

(** X11: a [_get] with a path, with or without parameters and without a
    path variable (the list and the current-item operations), sends one GET
    request without a body.  Its URL is the base authority followed by the
    path and the encoded parameters, ASCII text all of it, in lower case:
    each of the letters A to Z replaced by its small letter, every other
    character as it was.  The parameters are encoded as they were passed,
    their [None] values included. *)
Theorem get_with_params_on_the_wire (self : MinuteDockCall)
    (cls : ModelClass) (path : string)
    (params : option (gmap string value)) (w : world) :
  base_is_authority BASE_URL →
  let raw := url_scheme BASE_URL ++ "://" ++ url_netloc BASE_URL
             ++ (if nonempty path then rooted path else "")
             ++ match params with
                | Some params =>
                    if nonempty (urlencode params)
                    then "?" ++ urlencode params else ""
                | None => ""
                end in
  is_ascii raw = true →
  ∃ r,
    sent (_get self cls (path_ path :: option_list (params_ <$> params)) w).2
    = (sent w ++ [r])%list
    ∧ req_method r = "GET"
    ∧ req_data r = None
    ∧ lowered_from (req_url r) raw = true
    ∧ no_capital (req_url r) = true.
Proof.
  intros Hbase raw _.
  erewrite (get_run _ _ _ _ w).
  - rewrite request_then_handle_run. eexists.
    split; [reflexivity|]. split; [reflexivity|]. split; [reflexivity|].
    cbn [req_url request_made].
    split; [apply lower_lowered_from|apply lower_no_capital].
  - destruct params as [p|]; by apply api_url_shape_no_variable.
Qed.

(** ** The update operations and the timer operations *)

(** X12: the update operations never put the id into the URL: they pass it
    under the keyword [path_var], and [_put] reads [id].  Each sends its PUT
    request to the endpoint of the collection, the same URL for every id;
    for a time entry the id travels in the body only. *)
Theorem update_operations_drop_the_id (self : MinuteDockCall) (id : Z)
    (w : world) :
  (∀ budget_type budget_frequency budget_target budget_progress
     default_rate_dollars pinned name short_code active,
     ∃ r, sent (update_contact self id budget_type budget_frequency
                  budget_target budget_progress default_rate_dollars pinned
                  name short_code active w).2 = (sent w ++ [r])%list
          ∧ req_method r = "PUT"
          ∧ req_url r
            = lower (geturl (replace_path "/api/v1/contacts" BASE_URL)))
  ∧ (∀ budget_type budget_frequency budget_target budget_progress
       default_rate_dollars pinned name contact_id short_code active hidden
       description,
       (∃ r, sent (update_project self id budget_type budget_frequency
                     budget_target budget_progress default_rate_dollars
                     pinned name contact_id short_code active hidden
                     description w).2 = (sent w ++ [r])%list
             ∧ req_method r = "PUT"
             ∧ req_url r
               = lower (geturl (replace_path "/api/v1/projects" BASE_URL)))
       ∧ (∃ r, sent (update_task self id budget_type budget_frequency
                       budget_target budget_progress default_rate_dollars
                       pinned name contact_id short_code active hidden
                       description w).2 = (sent w ++ [r])%list
               ∧ req_method r = "PUT"
               ∧ req_url r
                 = lower (geturl (replace_path "/api/v1/tasks" BASE_URL))))
  ∧ (∀ account_id description duration contact_id project_id task_ids
       invoice_id logged_at,
       ∃ r, sent (update_time_entry self id account_id description duration
                    contact_id project_id task_ids invoice_id logged_at w).2
            = (sent w ++ [r])%list
            ∧ req_method r = "PUT"
            ∧ req_url r
              = lower (geturl (replace_path "/api/v1/entries" BASE_URL))
            ∧ req_data r
              = Some (json_dumps
                        (remove_none_loop
                           (time_entry_payload (VInt id) account_id
                              description duration contact_id project_id
                              task_ids invoice_id logged_at)))).
Proof.
  assert (Hcontacts : API_PATH !!! "contacts" = "/api/v1/contacts")
    by (by vm_compute).
  assert (Hprojects : API_PATH !!! "projects" = "/api/v1/projects")
    by (by vm_compute).
  assert (Htasks : API_PATH !!! "tasks" = "/api/v1/tasks") by (by vm_compute).
  assert (Hentries : API_PATH !!! "entries" = "/api/v1/entries")
    by (by vm_compute).
  unfold update_contact, update_project, update_task, update_time_entry.
  rewrite Hcontacts, Hprojects, Htasks, Hentries.
  split; [|split].
  - intros. erewrite put_run by reflexivity.
    rewrite request_then_handle_run. by eexists.
  - intros. split.
    + erewrite put_run by reflexivity.
      rewrite request_then_handle_run. by eexists.
    + erewrite put_run by reflexivity.
      rewrite request_then_handle_run. by eexists.
  - intros. erewrite put_run by reflexivity.
    rewrite request_then_handle_run. eexists. split; [reflexivity|].
    split; [done|]. split; [done|].
    cbn [req_data request_made get_payload omap head fmap option_fmap
         option_map]. unfold remove_none_values.
    by rewrite remove_none_loop_filter.
Qed.

Lemma api_url_fixed_tail (path : string) (path_var : path_variable)
    (tail : string) :
  base_is_authority BASE_URL →
  rooted (path ++ "/" ++ str path_var) = tail →
  lower tail = tail →
  api_url (Some path) (Some path_var) None
  = Ret (lower (url_scheme BASE_URL ++ "://" ++ url_netloc BASE_URL) ++ tail).
Proof.
  intros Hbase Htail Hlower. rewrite api_url_shape by done. f_equal.
  rewrite Htail. unfold query_suffix. rewrite string_app_nil_r.
  transitivity (lower ((url_scheme BASE_URL ++ "://" ++ url_netloc BASE_URL)
                       ++ tail)).
  - f_equal. by rewrite !string_app_assoc.
  - by rewrite lower_app, Hlower.
Qed.

(** X13: each timer operation sends one POST request without a body to
    the current-entry endpoint followed by its word: [start], [pause] or
    [log]. *)
Theorem timer_operations_on_the_wire (self : MinuteDockCall) (w : world) :
  base_is_authority BASE_URL →
  let base := lower (url_scheme BASE_URL ++ "://" ++ url_netloc BASE_URL) in
  (∃ r, sent (start_timer self w).2 = (sent w ++ [r])%list
        ∧ req_method r = "POST" ∧ req_data r = None
        ∧ req_url r = base ++ "/api/v1/entries/current/start")
  ∧ (∃ r, sent (pause_timer self w).2 = (sent w ++ [r])%list
          ∧ req_method r = "POST" ∧ req_data r = None
          ∧ req_url r = base ++ "/api/v1/entries/current/pause")
  ∧ (∃ r, sent (log_timer self w).2 = (sent w ++ [r])%list
          ∧ req_method r = "POST" ∧ req_data r = None
          ∧ req_url r = base ++ "/api/v1/entries/current/log").
Proof.
  intros Hbase base.
  assert (Hcurrent : API_PATH !!! "current_entry" = "/api/v1/entries/current")
    by (by vm_compute).
  unfold start_timer, pause_timer, log_timer. rewrite Hcurrent.
  split; [|split].
  - erewrite post_run
      by (by apply (api_url_fixed_tail _ _ "/api/v1/entries/current/start")).
    rewrite request_then_handle_run. by eexists.
  - erewrite post_run
      by (by apply (api_url_fixed_tail _ _ "/api/v1/entries/current/pause")).
    rewrite request_then_handle_run. by eexists.
  - erewrite post_run
      by (by apply (api_url_fixed_tail _ _ "/api/v1/entries/current/log")).
    rewrite request_then_handle_run. by eexists.
Qed.

(** ** Getting one item by its id *)

Lemma lower_pretty_N_char (x : N) :
  lower_ascii (pretty_N_char x) = pretty_N_char x.
Proof. unfold pretty_N_char. by repeat case_match. Qed.

Lemma lower_pretty_N_go (x : N) (s : string) :
  lower s = s → lower (pretty_N_go x s) = pretty_N_go x s.
Proof.
  revert s. induction (N.lt_wf_0 x) as [x _ IH]; intros s Hs.
  destruct (decide (x = 0)%N) as [->|Hx]; [by rewrite pretty_N_go_0|].
  rewrite pretty_N_go_step by lia. apply IH.
  - apply N.div_lt; lia.
  - cbn [lower]. by rewrite lower_pretty_N_char, Hs.
Qed.

Lemma lower_pretty_Z (n : Z) : lower (pretty n) = pretty n.
Proof.
  assert (HN : ∀ x : N, lower (pretty x) = pretty x).
  { intros x. unfold pretty, pretty_N. case_decide; [done|].
    by apply lower_pretty_N_go. }
  destruct n as [|p|p]; [done | apply HN |].
  change (pretty (Z.neg p)) with ("-" ++ pretty (N.pos p)).
  rewrite lower_app. by rewrite HN.
Qed.

(** X14: [get_contact] and [get_project] send one GET request without a
    body to the endpoint of the collection followed by a slash and the id in
    decimal; two different ids give two different URLs. *)
Theorem get_by_id_on_the_wire (self : MinuteDockCall) (w : world) :
  base_is_authority BASE_URL →
  let base := lower (url_scheme BASE_URL ++ "://" ++ url_netloc BASE_URL) in
  (∀ id : Z,
     (∃ r, sent (get_contact self id w).2 = (sent w ++ [r])%list
           ∧ req_method r = "GET" ∧ req_data r = None
           ∧ req_url r = base ++ "/api/v1/contacts/" ++ pretty id)
     ∧ (∃ r, sent (get_project self id w).2 = (sent w ++ [r])%list
             ∧ req_method r = "GET" ∧ req_data r = None
             ∧ req_url r = base ++ "/api/v1/projects/" ++ pretty id))
  ∧ (∀ id1 id2 : Z,
       base ++ "/api/v1/contacts/" ++ pretty id1
       = base ++ "/api/v1/contacts/" ++ pretty id2 → id1 = id2).
Proof.
  intros Hbase base.
  assert (Hcontacts : API_PATH !!! "contacts" = "/api/v1/contacts")
    by (by vm_compute).
  assert (Hprojects : API_PATH !!! "projects" = "/api/v1/projects")
    by (by vm_compute).
  assert (Htail : ∀ (prefix : string) (id : Z),
            lower prefix = prefix →
            lower (prefix ++ pretty id) = prefix ++ pretty id).
  { intros prefix id Hp. by rewrite lower_app, Hp, lower_pretty_Z. }
  split.
  - intros id. unfold get_contact, get_project.
    rewrite Hcontacts, Hprojects. split.
    + erewrite get_run.
      * rewrite request_then_handle_run. by eexists.
      * apply (api_url_fixed_tail _ _ ("/api/v1/contacts/" ++ pretty id));
          [done | done | by apply Htail].
    + erewrite get_run.
      * rewrite request_then_handle_run. by eexists.
      * apply (api_url_fixed_tail _ _ ("/api/v1/projects/" ++ pretty id));
          [done | done | by apply Htail].
  - intros id1 id2 Heq.
    apply (inj (String.app base)), (inj (String.app "/api/v1/contacts/")) in Heq.
    by apply (inj pretty).
Qed.

End CallLayerFurther.

Lemma base_of_answering (status : Z) (body : value) :
  base_is_authority (@BASE_URL (answering status body)).
Proof. unfold base_is_authority; simpl. repeat split; discriminate. Qed.

Lemma credentials_on_every_request_witness :
  let C := answering 200 (VDict ∅) in
  let self := {| api_key := "KEY"; account_id := Some "42";
                 headers := 0%nat |} in
  let w := (MinuteDock_init "KEY" (Some "42") new_world).2 in
  let w' := (@create_time_entry C self VNone VNone (VStr "x") VNone VNone
               VNone VNone VNone VNone w).2 in
  let r := @request_made C self "GET" "https://minutedock.com/api/v1/users/me"
             None w' in
  req_headers r !! "X-API-Key" = Some "KEY"
  ∧ req_headers r !! "X-Account-ID" = Some "42".
Proof.
  intros C self w w'.
  apply (@credentials_on_every_request C "KEY" (Some "42") new_world w w' self).
  - reflexivity.
  - apply rtc_once. apply (@step_post C).
Defined.


Lemma get_with_params_on_the_wire_witness :
  let C := answering 200 (VList []) in
  let self := {| api_key := "KEY"; account_id := None; headers := 0%nat |} in
  let params := dict [("pinned", VNone); ("Active", VBool true)] in
  (∃ r,
     sent (@_get C self Task [path_ "/API/v1/Tasks"; params_ params]
             new_world).2 = ([] ++ [r])%list
     ∧ req_method r = "GET"
     ∧ req_data r = None
     ∧ lowered_from (req_url r)
         "https://minutedock.com/API/v1/Tasks?Active&pinned" = true
     ∧ no_capital (req_url r) = true)
  ∧ req_url <$> sent (@_get C self Task
                        [path_ "/API/v1/Tasks"; params_ params] new_world).2
    = ["https://minutedock.com/api/v1/tasks?active&pinned"].
Proof.
  intros C self params. split; [|by vm_compute].
  assert (Hraw : url_scheme (@BASE_URL C) ++ "://" ++ url_netloc (@BASE_URL C)
                 ++ (if nonempty "/API/v1/Tasks" then rooted "/API/v1/Tasks"
                     else "")
                 ++ (if nonempty (@urlencode C params)
                     then "?" ++ @urlencode C params else "")
                 = "https://minutedock.com/API/v1/Tasks?Active&pinned")
    by (by vm_compute).
  pose proof (@get_with_params_on_the_wire C self Task "/API/v1/Tasks"
                (Some params) new_world (base_of_answering 200 (VList [])))
    as Hsent.
  cbv beta iota zeta in Hsent. rewrite Hraw in Hsent. by apply Hsent.
Defined.

Lemma timer_operations_on_the_wire_witness :
  let C := answering 200 (VDict ∅) in
  let self := {| api_key := "KEY"; account_id := None; headers := 0%nat |} in
  let base := lower (url_scheme (@BASE_URL C) ++ "://"
                     ++ url_netloc (@BASE_URL C)) in
  (∃ r, sent (@start_timer C self new_world).2 = ([] ++ [r])%list
        ∧ req_method r = "POST" ∧ req_data r = None
        ∧ req_url r = base ++ "/api/v1/entries/current/start")
  ∧ (∃ r, sent (@pause_timer C self new_world).2 = ([] ++ [r])%list
          ∧ req_method r = "POST" ∧ req_data r = None
          ∧ req_url r = base ++ "/api/v1/entries/current/pause")
  ∧ (∃ r, sent (@log_timer C self new_world).2 = ([] ++ [r])%list
          ∧ req_method r = "POST" ∧ req_data r = None
          ∧ req_url r = base ++ "/api/v1/entries/current/log").
Proof.
  intros C self.
  apply (@timer_operations_on_the_wire C self new_world).
  apply base_of_answering.
Defined.

Lemma get_by_id_on_the_wire_witness :
  let C := answering 200 (VDict ∅) in
  let self := {| api_key := "KEY"; account_id := None; headers := 0%nat |} in
  let base := lower (url_scheme (@BASE_URL C) ++ "://"
                     ++ url_netloc (@BASE_URL C)) in
  (∀ id : Z,
     (∃ r, sent (@get_contact C self id new_world).2 = ([] ++ [r])%list
           ∧ req_method r = "GET" ∧ req_data r = None
           ∧ req_url r = base ++ "/api/v1/contacts/" ++ pretty id)
     ∧ (∃ r, sent (@get_project C self id new_world).2 = ([] ++ [r])%list
             ∧ req_method r = "GET" ∧ req_data r = None
             ∧ req_url r = base ++ "/api/v1/projects/" ++ pretty id))
  ∧ (∀ id1 id2 : Z,
       base ++ "/api/v1/contacts/" ++ pretty id1
       = base ++ "/api/v1/contacts/" ++ pretty id2 → id1 = id2).
Proof.
  intros C self.
  apply (@get_by_id_on_the_wire C self new_world).
  apply base_of_answering.
Defined.
